(** * spell.cpp: spelling out a number in words, and in words and digits

    A shallow embedding of [words_and_linguistics/spell.cpp] and the
    properties of its validation, grouping and spelling code.

    Modelling conventions.
    - [std::string] is [string]; a [char] is an [ascii], read as the
      signed 8-bit value of the usual x86 ABI when it enters [int]
      arithmetic ([char_to_int]).
    - [int] is [Z].  Every [int] of the program is either a count bounded by
      the length of a string or a value derived from at most three
      characters, so no [int] leaves the 32-bit range for strings shorter
      than 2^31 characters and no wrap-around is written out.
    - Reading an array outside its bounds is undefined behaviour in C++; it
      is [None] here, and [do_spell] returns an [option].
    - [throw] is an explicit [outcome] returned next to the object state. *)

From Stdlib Require Import ZArith List Bool Ascii String Lia DecimalString.
From Equations Require Import Equations.
Import ListNotations.

Open Scope string_scope.
Open Scope Z_scope.

(** ** Small notations for undefined behaviour as [option] *)

Notation "x <- e ;; k" :=
  (match e with Some x => k | None => None end)
  (at level 61, e at next level, right associativity, only parsing).
Notation "' p <- e ;; k" :=
  (match e with Some p => k | None => None end)
  (at level 61, p pattern, e at next level, right associativity, only parsing).

(** [input[i] - '0']: the character is promoted to [int] first. *)
Definition char_to_int (c : ascii) : Z :=
  let n := Z.of_N (N_of_ascii c) in
  if n <? 128 then n else n - 256.

Definition digit_of (c : ascii) : Z := char_to_int c - char_to_int "0"%char.

(** [s[i]] for [i <= s.size()]: the character, or the terminating NUL at
    [i = s.size()]. *)
Definition at_ (s : string) (i : nat) : ascii :=
  match get i s with
  | Some c => c
  | None => zero
  end.

(** [table[i]] on a built-in array: defined only inside the bounds. *)
Definition index_array (table : list string) (i : Z) : option string :=
  if i <? 0 then None else nth_error table (Z.to_nat i).

(** [printf("%d")] of an [int]. *)
Definition decimal (n : Z) : string := NilZero.string_of_int (Z.to_int n).

(** [std::string(n, c)] *)
Fixpoint fill (n : nat) (c : ascii) : string :=
  match n with
  | O => EmptyString
  | S n' => String c (fill n' c)
  end.

(** [s.erase(pos)] keeps the first [pos] characters; [s.erase(0, n)] drops
    the first [n] (all of them when [n] is [npos] or exceeds the size). *)
Definition erase_from (pos : nat) (s : string) : string := substring 0 pos s.

Fixpoint erase_front (n : nat) (s : string) : string :=
  match n, s with
  | O, _ => s
  | S _, EmptyString => EmptyString
  | S n', String _ s' => erase_front n' s'
  end.

(** [std::remove_copy(first, last, d_first, value)]: copies the characters
    different from [value] over the beginning of the destination and returns
    the position after the last one written.  The destination must be at
    least as long as what is written, which holds at its one call site. *)
Fixpoint remove_copy (src : string) (dest : string) (value : ascii)
  : nat * string :=
  match src with
  | EmptyString => (O, dest)
  | String c src' =>
      if Ascii.eqb c value then remove_copy src' dest value
      else
        let '(pos, dest') :=
          remove_copy src' (erase_front 1 dest) value in
        (S pos, String c dest')
  end.

(** [s.find_first_not_of(c)]: [None] is [npos]. *)
Fixpoint find_first_not_of (s : string) (c : ascii) : option nat :=
  match s with
  | EmptyString => None
  | String c' s' =>
      if Ascii.eqb c' c then option_map S (find_first_not_of s' c)
      else Some O
  end.

Module spell_utilities.

Definition word_for_ones : list string :=
  [ ""; "one"; "two"; "three"; "four";
    "five"; "six"; "seven"; "eight";
    "nine" ].

Definition word_for_teens : list string :=
  [ ""; "eleven"; "twelve"; "thirteen"; "fourteen";
    "fifteen"; "sixteen"; "seventeen"; "eighteen";
    "nineteen" ].

Definition word_for_tens : list string :=
  [ ""; "ten"; "twenty"; "thirty"; "forty";
    "fifty"; "sixty"; "seventy"; "eighty";
    "ninety" ].

Definition name_for_big_numbers : list string :=
  [ ""; "thousand"; "million"; "billion";
    "trillion"; "quadrillion"; "quintillion";
    "sextillion"; "septillion"; "octillion";
    "nonillion"; "decillion"; "undecillion";
    "duodecillion"; "tredecillion"; "quattuordecillion";
    "quindecillion"; "sexdecillion"; "septendecillion";
    "octodecillion"; "novemdecillion"; "vigintillion";
    "unvigintillion"; "duovigintillion"; "trevigintillion";
    "quattuorvigintillion"; "quinvigintillion"; "sexvigintillion";
    "septenvigintillion"; "octovigintillion"; "novemvigintillion";
    "trigintillion"; "untrigintillion"; "duotrigintillion" ].

(** duotrigintillion = 99 zeros + 100 = 2 zeros + 1 non-zero digit *)
Definition MAX_DIGITS_ALLOWED : Z := 99 + 2 + 1.

Definition string_to_integer (input : string) : Z :=
  if (String.length input =? 3)%nat then
    digit_of (at_ input 0) * 100
    + digit_of (at_ input 1) * 10
    + digit_of (at_ input 2) * 1
  else if (String.length input =? 2)%nat then
    digit_of (at_ input 0) * 10
    + digit_of (at_ input 1) * 1
  else if (String.length input =? 1)%nat then
    digit_of (at_ input 0) * 1
  else 0.

(** [snprintf(buf, 4, "%d", input)]: at most three characters are kept. *)
Definition integer_to_string (input : Z) : string :=
  substring 0 3 (decimal input).

(** The scanning loop of [is_valid_number]; [rest] is [input] from
    position [i] on.  [None]: the function returns [false] from inside
    the loop; [Some i]: the loop ends, at the first NUL character or at
    the end of the string, with counter [i]. *)
Fixpoint is_valid_number_loop (rest : string) (i : Z) : option Z :=
  match rest with
  | EmptyString => Some i
  | String c rest' =>
      if Ascii.eqb c zero then Some i
      else
        let digit := digit_of c in
        if (digit <? 0) || (digit >? 9) then None
        else is_valid_number_loop rest' (i + 1)
  end.

Definition is_valid_number (input : string) : bool :=
  match input with
  | EmptyString => false
  | _ =>
      match is_valid_number_loop input 0 with
      | None => false
      | Some i => if i >? MAX_DIGITS_ALLOWED then false else true
      end
  end.

(** The slicing loop of [split_number_to_buckets_of_3_digits]. *)
Equations? split_loop (adjusted_input : string) (i : nat)
    (bucket : list string) (bkt_no : Z) : Z * list string
  by wf (String.length adjusted_input - i)%nat lt :=
  split_loop adjusted_input i bucket bkt_no
    with lt_dec i (String.length adjusted_input) => {
    | left _ :=
        split_loop adjusted_input (i + 3)
          (bucket ++ [substring i 3 adjusted_input]) (bkt_no + 1);
    | right _ := (bkt_no, bucket) }.
Proof. lia. Qed.

(** Returns the number of buckets pushed and the vector they were pushed
    to. *)
Definition split_number_to_buckets_of_3_digits
    (input : string) (bucket : list string) : Z * list string :=
  let bkt_length := 3%nat in
  let adjusted_input := "" in
  let pad := (bkt_length - (String.length input mod bkt_length))%nat in
  let adjusted_input :=
    if (pad =? 1)%nat then adjusted_input ++ "0"
    else if (pad =? 2)%nat then adjusted_input ++ "00"
    else adjusted_input in
  let adjusted_input := adjusted_input ++ input in
  let bkt_no := 0 in
  split_loop adjusted_input 0 bucket bkt_no.

(** [snprintf(rule, 128, ...)]: at most 127 characters are kept. *)
Definition number_constraints : string :=
  substring 0 127
    ("Number must be a non-zero positive "
     ++ "integer, should not exceed " ++ decimal MAX_DIGITS_ALLOWED
     ++ " digits "
     ++ "and may contain commas as digits "
     ++ "separator").

End spell_utilities.

(** ** The [Spell] class *)

Record Spell : Type := mkSpell {
  _number_in_digits : string;
  _number_in_words : string;
  _number_in_words_and_digits : string
}.

Definition set_digits (this : Spell) (v : string) : Spell :=
  mkSpell v (_number_in_words this) (_number_in_words_and_digits this).
Definition set_words (this : Spell) (v : string) : Spell :=
  mkSpell (_number_in_digits this) v (_number_in_words_and_digits this).
Definition set_words_and_digits (this : Spell) (v : string) : Spell :=
  mkSpell (_number_in_digits this) (_number_in_words this) v.

(** What a call that may throw does: it returns, or it throws a
    [std::runtime_error] carrying its [what()] message. *)
Inductive exception : Type :=
| runtime_error (what : string).

Inductive outcome : Type :=
| Returned
| Thrown (e : exception).

(** The two [erase] statements of [set_number_in_digits]: commas removed,
    then the preceding zeros. *)
Definition sanitize (given_number_in_digits : string) : string :=
  let sanitized_number := fill (String.length given_number_in_digits) zero in
  (* remove comma separators *)
  let '(new_end, sanitized_number) :=
    remove_copy given_number_in_digits sanitized_number ","%char in
  let sanitized_number := erase_from new_end sanitized_number in
  (* remove preceding zeros and as a side-effect also takes care of only
     zeros input *)
  match find_first_not_of sanitized_number "0"%char with
  | Some n => erase_front n sanitized_number
  | None => erase_front (String.length sanitized_number) sanitized_number
  end.

(** The outcome of the call and the object after it. *)
Definition set_number_in_digits (given_number_in_digits : string)
    (this : Spell) : outcome * Spell :=
  let sanitized_number := sanitize given_number_in_digits in
  if negb (spell_utilities.is_valid_number sanitized_number) then
    (Thrown (runtime_error spell_utilities.number_constraints), this)
  else
    (Returned, set_digits this sanitized_number).

(** The constructor: an object, or the exception that leaves none. *)
Definition Spell_new (given_number_in_digits : string) : exception + Spell :=
  let this := mkSpell "" "" "" in
  match set_number_in_digits given_number_in_digits this with
  | (Returned, this') => inr this'
  | (Thrown e, _) => inl e
  end.

Definition number_in_digits (this : Spell) : string :=
  _number_in_digits this.
Definition number_in_words (this : Spell) : string :=
  _number_in_words this.
Definition number_in_words_and_digits (this : Spell) : string :=
  _number_in_words_and_digits this.
Definition number_length (this : Spell) : Z :=
  Z.of_nat (String.length (_number_in_digits this)).

(** The state of the loop of [do_spell]: the object and the two locals that
    live across iterations. *)
Record spell_state : Type := mkState {
  this_ : Spell;
  show_big_number_name : bool;
  big_number : Z
}.

(** "focus on the 100s" *)
Definition spell_hundreds (bkt : string) (number_from_bucket : Z)
    (words : string) : option string :=
  if number_from_bucket >? 99 then
    let number := digit_of (at_ bkt 0) in
    w <- index_array spell_utilities.word_for_ones number ;;
    Some (words ++ (w ++ " " ++ "hundred" ++ " "))
  else Some words.

(** "focus on the tens"; also gives the new [number_from_bucket]. *)
Definition spell_tens (number_from_bucket : Z) (words : string)
  : option (Z * string) :=
  let number_from_bucket := Z.rem number_from_bucket 100 in
  if (number_from_bucket >? 10) && (number_from_bucket <? 20) then
    let number := number_from_bucket - 10 in
    w <- index_array spell_utilities.word_for_teens number ;;
    Some (0, words ++ (w ++ " "))
  else if number_from_bucket >=? 10 then
    let number := Z.quot number_from_bucket 10 in
    w <- index_array spell_utilities.word_for_tens number ;;
    Some (number_from_bucket, words ++ (w ++ " "))
  else Some (number_from_bucket, words).

(** "focus on the ones" *)
Definition spell_ones (number_from_bucket : Z) (words : string)
  : option string :=
  let number_from_bucket := Z.rem number_from_bucket 10 in
  if (number_from_bucket >? 0) && (number_from_bucket <? 10) then
    w <- index_array spell_utilities.word_for_ones number_from_bucket ;;
    Some (words ++ (w ++ " "))
  else Some words.

(** What one bucket appends to [_number_in_words] before any name of a big
    number: its hundreds, tens and ones. *)
Definition spell_bucket (bkt : string) (number_from_bucket : Z)
    (words : string) : option string :=
  words <- spell_hundreds bkt number_from_bucket words ;;
  '(number_from_bucket, words) <- spell_tens number_from_bucket words ;;
  spell_ones number_from_bucket words.

(** The body of the [for] loop of [do_spell], at index [i]. *)
Definition do_spell_body (bucket : list string) (i : nat) (st : spell_state)
  : option spell_state :=
  let this := this_ st in
  let show := show_big_number_name st in
  bkt <- nth_error bucket i ;;
  let number_from_bucket := spell_utilities.string_to_integer bkt in
  let '(show, this) :=
    if negb (number_from_bucket =? 0) then
      (true,
       set_words_and_digits this
         (_number_in_words_and_digits this
          ++ (spell_utilities.integer_to_string number_from_bucket ++ " ")))
    else (show, this) in
  words <- spell_bucket bkt number_from_bucket (_number_in_words this) ;;
  let this := set_words this words in
  '(show, this) <-
    (if show then
       name <- index_array spell_utilities.name_for_big_numbers
                 (big_number st) ;;
       let this := set_words this (_number_in_words this ++ (name ++ " ")) in
       let this :=
         set_words_and_digits this
           (_number_in_words_and_digits this ++ (name ++ " ")) in
       Some (false, this)
     else Some (show, this)) ;;
  Some (mkState this show (big_number st - 1)).

(** [n] iterations of the loop, from index [i]. *)
Fixpoint do_spell_loop (n : nat) (bucket : list string) (i : nat)
    (st : spell_state) : option spell_state :=
  match n with
  | O => Some st
  | S n' =>
      st' <- do_spell_body bucket i st ;;
      do_spell_loop n' bucket (S i) st'
  end.

(** The state on entry to the loop, and the buckets it runs over. *)
Definition do_spell_init (this : Spell) : Z * list string * spell_state :=
  let this := set_words this "" in
  let this := set_words_and_digits this "" in
  let bucket : list string := [] in
  let '(allocated_buckets, bucket) :=
    spell_utilities.split_number_to_buckets_of_3_digits
      (_number_in_digits this) bucket in
  let show_big_number_name := false in
  let big_number := allocated_buckets - 1 in
  (allocated_buckets, bucket, mkState this show_big_number_name big_number).

(** The state after the first [k] iterations of the loop. *)
Definition do_spell_upto (k : nat) (this : Spell) : option spell_state :=
  let '(_, bucket, st) := do_spell_init this in
  do_spell_loop k bucket 0 st.

Definition do_spell (this : Spell) : option Spell :=
  let '(allocated_buckets, bucket, st) := do_spell_init this in
  st' <- do_spell_loop (Z.to_nat allocated_buckets) bucket 0 st ;;
  Some (this_ st').

(** [main]'s use of the class: construct, spell, read the two results. *)
Definition spell (number : string) : exception + option (string * string) :=
  match Spell_new number with
  | inl e => inl e
  | inr sp =>
      inr (sp' <- do_spell sp ;;
           Some (number_in_words sp', number_in_words_and_digits sp'))
  end.

(** ** The demonstration program *)

(** [std::endl], as the character it writes. *)
Definition endl : string := String "010" "".

(** What [show_usage] writes to [std::cout]; it reads [argv[0]]. *)
Definition show_usage (argv : list string) : option string :=
  argv0 <- nth_error argv 0 ;;
  Some (("Usage: " ++ endl ++ " " ++ argv0
         ++ " the_number_to_spell " ++ endl ++ endl)
        ++ (spell_utilities.number_constraints ++ endl)).

(** What a run of [main] leaves behind: the text written to [std::cout] and
    to [std::cerr], and the value returned. *)
Record output : Type := mkOutput {
  cout : string;
  cerr : string;
  returned : Z
}.

(** [main], with [argc] the length of [argv]; [cin_word] is the word that
    [std::cin >> number] extracts (empty when it extracts nothing).  [None]
    is undefined behaviour: an [argv] entry that is not there, or
    [do_spell] reading outside a table. *)
Definition main (argv : list string) (cin_word : string) : option output :=
  let argc := List.length argv in
  let usage :=
    if (1 <? argc)%nat then
      match nth_error argv 1 with
      | Some argv1 => Ascii.eqb (at_ argv1 0) "-"
      | None => false
      end
    else false in
  if usage then
    text <- show_usage argv ;;
    Some (mkOutput text "" 0)
  else
    '(prompt, number) <-
      (if (argc =? 1)%nat then Some (">", cin_word)
       else argv1 <- nth_error argv 1 ;; Some ("", argv1)) ;;
    match Spell_new number with
    | inr sp =>
        sp <- do_spell sp ;;
        Some (mkOutput
                (prompt
                 ++ ("In words: " ++ number_in_words sp ++ endl)
                 ++ ("In words and digits: "
                     ++ number_in_words_and_digits sp ++ endl)
                 ++ ("Number length: " ++ decimal (number_length sp)
                     ++ " digits" ++ endl))
                "" 0)
    | inl (runtime_error what) =>
        Some (mkOutput prompt (what ++ endl) 0)
    end.

(** ** Vocabulary of the properties *)

Fixpoint string_forall (p : ascii -> bool) (s : string) : bool :=
  match s with
  | EmptyString => true
  | String c s' => p c && string_forall p s'
  end.

(** An ASCII digit ['0'..'9']. *)
Definition is_digit (c : ascii) : bool :=
  (Ascii.leb "0" c) && (Ascii.leb c "9").

Definition digits_only (s : string) : bool := string_forall is_digit s.

Definition all_zeros (s : string) : bool :=
  string_forall (fun c => Ascii.eqb c "0") s.

Definition zeros_and_commas (s : string) : bool :=
  string_forall (fun c => Ascii.eqb c "0" || Ascii.eqb c ",") s.

(** A normalized digit string: digits only, with a nonzero leading digit. *)
Definition normalized (s : string) : bool :=
  match s with
  | EmptyString => false
  | String c _ => negb (Ascii.eqb c "0") && digits_only s
  end.

(** A group: exactly three digits. *)
Definition is_group (g : string) : bool :=
  (String.length g =? 3)%nat && digits_only g.

(** The string with every occurrence of [value] deleted. *)
Fixpoint delete_char (value : ascii) (s : string) : string :=
  match s with
  | EmptyString => EmptyString
  | String c s' =>
      if Ascii.eqb c value then delete_char value s'
      else String c (delete_char value s')
  end.

(** The string without its leading occurrences of [c]. *)
Fixpoint strip_leading (c : ascii) (s : string) : string :=
  match s with
  | EmptyString => EmptyString
  | String c' s' => if Ascii.eqb c' c then strip_leading c s' else s
  end.

(** The number of leading occurrences of [c]. *)
Fixpoint count_leading (c : ascii) (s : string) : nat :=
  match s with
  | EmptyString => O
  | String c' s' => if Ascii.eqb c' c then S (count_leading c s') else O
  end.

(** The concatenation of a list of strings, in order. *)
Definition flatten (l : list string) : string := fold_right append "" l.

(** The zeros the grouper puts in front of a number of [len] digits. *)
Definition padding (len : nat) : string :=
  fill ((3 - len mod 3) mod 3) "0".

(** A valid number, as [set_number_in_digits] stores it: a normalized digit
    string that is not longer than the maximum. *)
Definition valid_number (s : string) : bool :=
  normalized s
  && (Z.of_nat (String.length s) <=? spell_utilities.MAX_DIGITS_ALLOWED).

(** The error every failed validation raises. *)
Definition InvalidNumber : exception :=
  runtime_error spell_utilities.number_constraints.

(** The characters before the first NUL: what a C string reader sees. *)
Fixpoint until_nul (s : string) : string :=
  match s with
  | EmptyString => EmptyString
  | String c s' =>
      if Ascii.eqb c zero then EmptyString else String c (until_nul s')
  end.

(** No NUL character inside, as in every string that comes from [argv]. *)
Definition no_nul (s : string) : bool :=
  string_forall (fun c => negb (Ascii.eqb c zero)) s.

Definition no_comma (s : string) : bool :=
  string_forall (fun c => negb (Ascii.eqb c ",")) s.

(** The number that the characters of [s] write in base ten after [acc],
    each character counting as [digit_of] it. *)
Fixpoint decimal_value (acc : Z) (s : string) : Z :=
  match s with
  | EmptyString => acc
  | String c s' => decimal_value (acc * 10 + digit_of c) s'
  end.

(** The same number read off groups of three, most significant first. *)
Definition groups_value (groups : list string) : Z :=
  fold_left (fun acc g => acc * 1000 + spell_utilities.string_to_integer g)
    groups 0.

(** The name of a big number at a scale index inside the table. *)
Definition big_name (k : nat) : string :=
  nth k spell_utilities.name_for_big_numbers "".

(** The words of a group alone: what [spell_bucket] appends. *)
Definition group_words (g : string) : string :=
  match spell_bucket g (spell_utilities.string_to_integer g) "" with
  | Some w => w
  | None => ""
  end.

(** What the groups put into [_number_in_words], a group's scale index
    being the number of groups after it. *)
Fixpoint words_of_groups (groups : list string) : string :=
  match groups with
  | [] => ""
  | g :: rest =>
      (if spell_utilities.string_to_integer g =? 0 then ""
       else group_words g ++ big_name (List.length rest) ++ " ")
      ++ words_of_groups rest
  end.

(** What the groups put into [_number_in_words_and_digits]. *)
Fixpoint digits_of_groups (groups : list string) : string :=
  match groups with
  | [] => ""
  | g :: rest =>
      (if spell_utilities.string_to_integer g =? 0 then ""
       else spell_utilities.integer_to_string
              (spell_utilities.string_to_integer g) ++ " "
            ++ big_name (List.length rest) ++ " ")
      ++ digits_of_groups rest
  end.

(** The ten digit characters. *)
Definition digit_chars : list ascii :=
  ["0"; "1"; "2"; "3"; "4"; "5"; "6"; "7"; "8"; "9"]%char.

(** The numeral of a group: the group without its leading zeros, and ["0"]
    for the group of three zeros. *)
Definition numeral_of_group (g : string) : string :=
  match strip_leading "0" g with
  | EmptyString => "0"
  | s => s
  end.

(** The three lines that [main] writes for a valid number. *)
Definition report (number : string) : string :=
  let groups :=
    snd (spell_utilities.split_number_to_buckets_of_3_digits number []) in
  ("In words: " ++ words_of_groups groups ++ endl)
  ++ ("In words and digits: " ++ digits_of_groups groups ++ endl)
  ++ ("Number length: " ++ decimal (Z.of_nat (String.length number))
      ++ " digits" ++ endl).

(** What [main] leaves behind once it has the number to spell. *)
Definition spelled_or_refused (prompt number : string) : output :=
  if valid_number (sanitize number)
  then mkOutput (prompt ++ report (sanitize number)) "" 0
  else mkOutput prompt (spell_utilities.number_constraints ++ endl) 0.

(** ** The code on a few inputs *)

Example string_to_integer_014 : spell_utilities.string_to_integer "014" = 14.
Proof. reflexivity. Qed.

Example integer_to_string_14 : spell_utilities.integer_to_string 14 = "14".
Proof. reflexivity. Qed.

Example split_1234567 :
  spell_utilities.split_number_to_buckets_of_3_digits "1234567" []
  = (3, ["001"; "234"; "567"]).
Proof. reflexivity. Qed.

Example sanitize_0012345 : sanitize "001,2345" = "12345".
Proof. reflexivity. Qed.

Example is_valid_number_12a : spell_utilities.is_valid_number "12a" = false.
Proof. reflexivity. Qed.

Example spell_123 :
  spell "123" = inr (Some ("one hundred twenty three  ", "123  ")).
Proof. reflexivity. Qed.

Example spell_1001 :
  spell "1001" = inr (Some ("one thousand one  ", "1 thousand 1  ")).
Proof. reflexivity. Qed.

Example spell_100020 :
  spell "100020"
  = inr (Some ("one hundred thousand twenty  ", "100 thousand 20  ")).
Proof. reflexivity. Qed.

Example spell_0 : spell "0" = inl InvalidNumber.
Proof. reflexivity. Qed.

(** ** Strings *)

Lemma append_nil_r (s : string) : s ++ "" = s.
Proof. induction s as [|c s IH]; simpl; [reflexivity | now rewrite IH]. Qed.

Lemma append_assoc (a b c : string) : (a ++ b) ++ c = a ++ (b ++ c).
Proof. induction a as [|x a IH]; simpl; [reflexivity | now rewrite IH]. Qed.

Lemma length_append (a b : string) :
  String.length (a ++ b) = (String.length a + String.length b)%nat.
Proof. induction a as [|x a IH]; simpl; [reflexivity | now rewrite IH]. Qed.

Lemma length_zero_empty (s : string) : String.length s = O -> s = "".
Proof. destruct s; simpl; [reflexivity | discriminate]. Qed.

Lemma length_fill (n : nat) (c : ascii) : String.length (fill n c) = n.
Proof. induction n as [|n IH]; simpl; [reflexivity | now rewrite IH]. Qed.

Lemma append_nonempty_r (a b : string) : b <> "" -> a ++ b <> "".
Proof.
  intros Hb H. apply Hb, length_zero_empty.
  apply (f_equal String.length) in H. rewrite length_append in H.
  simpl in H. lia.
Qed.

Lemma append_nonempty_l (a b : string) : a <> "" -> a ++ b <> "".
Proof.
  intros Ha H. apply Ha, length_zero_empty.
  apply (f_equal String.length) in H. rewrite length_append in H.
  simpl in H. lia.
Qed.

Lemma substring_0_append (a b : string) :
  substring 0 (String.length a) (a ++ b) = a.
Proof. induction a as [|x a IH]; simpl; [now destruct b | now rewrite IH]. Qed.

Lemma string_forall_append (p : ascii -> bool) (a b : string) :
  string_forall p (a ++ b) = string_forall p a && string_forall p b.
Proof.
  induction a as [|x a IH]; simpl; [reflexivity|].
  rewrite IH. now rewrite andb_assoc.
Qed.

Lemma string_forall_fill (p : ascii -> bool) (n : nat) (c : ascii) :
  p c = true -> string_forall p (fill n c) = true.
Proof. intros H. induction n as [|n IH]; simpl; [reflexivity|]. now rewrite H. Qed.

(** ** Characters *)

Lemma is_digit_digit_of (c : ascii) :
  is_digit c = (0 <=? digit_of c) && (digit_of c <=? 9).
Proof. destruct c as [[] [] [] [] [] [] [] []]; reflexivity. Qed.

Lemma is_digit_range (c : ascii) :
  is_digit c = true <-> 0 <= digit_of c <= 9.
Proof. rewrite is_digit_digit_of, andb_true_iff, !Z.leb_le. tauto. Qed.

Lemma is_digit_not_nul (c : ascii) : is_digit c = true -> Ascii.eqb c zero = false.
Proof. destruct c as [[] [] [] [] [] [] [] []]; vm_compute; congruence. Qed.

Lemma is_digit_not_comma (c : ascii) : is_digit c = true -> Ascii.eqb c "," = false.
Proof. destruct c as [[] [] [] [] [] [] [] []]; vm_compute; congruence. Qed.

Lemma digit_of_zero_char (c : ascii) :
  is_digit c = true -> (digit_of c = 0 <-> c = "0"%char).
Proof.
  destruct c as [[] [] [] [] [] [] [] []]; vm_compute;
    intros H; try discriminate; split; intros E;
    try reflexivity; discriminate.
Qed.

(** ** Normalization *)

Lemma remove_copy_spec (src dest : string) (value : ascii) :
  (String.length src <= String.length dest)%nat ->
  remove_copy src dest value =
    (String.length (delete_char value src),
     delete_char value src
     ++ erase_front (String.length (delete_char value src)) dest).
Proof.
  revert dest. induction src as [|c src IH]; intros dest Hlen; simpl.
  - reflexivity.
  - simpl in Hlen. destruct (Ascii.eqb c value).
    + apply IH. lia.
    + destruct dest as [|d dest]; simpl in Hlen; [lia|].
      simpl. rewrite IH by lia. reflexivity.
Qed.

Lemma find_first_not_of_count (s : string) (c : ascii) :
  match find_first_not_of s c with
  | Some n => n = count_leading c s
  | None => String.length s = count_leading c s
  end.
Proof.
  induction s as [|x s IH]; simpl; [reflexivity|].
  destruct (Ascii.eqb x c); [|reflexivity].
  destruct (find_first_not_of s c); simpl; now rewrite IH.
Qed.

Lemma erase_front_count (s : string) (c : ascii) :
  erase_front (count_leading c s) s = strip_leading c s.
Proof.
  induction s as [|x s IH]; simpl; [reflexivity|].
  destruct (Ascii.eqb x c); simpl; [apply IH | reflexivity].
Qed.

(** The two [erase] statements compute what their comments say. *)
Lemma sanitize_spec (s : string) :
  sanitize s = strip_leading "0" (delete_char "," s).
Proof.
  unfold sanitize.
  rewrite remove_copy_spec by (rewrite length_fill; lia).
  unfold erase_from. rewrite substring_0_append.
  pose proof (find_first_not_of_count (delete_char "," s) "0") as H.
  destruct (find_first_not_of (delete_char "," s) "0"); rewrite H;
    apply erase_front_count.
Qed.

Lemma delete_char_idem (value : ascii) (s : string) :
  delete_char value (delete_char value s) = delete_char value s.
Proof.
  induction s as [|c s IH]; simpl; [reflexivity|].
  destruct (Ascii.eqb c value) eqn:E; simpl; [apply IH|].
  now rewrite E, IH.
Qed.

Lemma strip_leading_split (c : ascii) (s : string) :
  s = fill (count_leading c s) c ++ strip_leading c s.
Proof.
  induction s as [|x s IH]; simpl; [reflexivity|].
  destruct (Ascii.eqb x c) eqn:E; simpl; [|reflexivity].
  apply Ascii.eqb_eq in E. subst x. now rewrite <- IH.
Qed.

Lemma delete_char_digits (s : string) :
  digits_only s = true -> delete_char "," s = s.
Proof.
  induction s as [|c s IH]; simpl; [reflexivity|].
  intros H. apply andb_prop in H as [Hc Hs].
  rewrite (is_digit_not_comma c Hc), IH by assumption. reflexivity.
Qed.

Lemma sanitize_normalized (s : string) :
  normalized s = true -> sanitize s = s.
Proof.
  intros H. rewrite sanitize_spec.
  destruct s as [|c s]; [discriminate|]. unfold normalized in H.
  apply andb_prop in H as [Hc Hd].
  rewrite delete_char_digits by assumption. simpl.
  destruct (Ascii.eqb c "0"); [discriminate | reflexivity].
Qed.

Lemma sanitize_zeros_and_commas (s : string) :
  zeros_and_commas s = true -> sanitize s = "".
Proof.
  intros H. rewrite sanitize_spec.
  induction s as [|c s IH]; simpl; [reflexivity|].
  simpl in H. apply andb_prop in H as [Hc Hs].
  destruct (Ascii.eqb c ",") eqn:Ec; [now apply IH|].
  rewrite orb_false_r in Hc. simpl. rewrite Hc. now apply IH.
Qed.

(** ** Validation *)

Lemma is_valid_number_loop_digits (s : string) (i : Z) :
  digits_only s = true ->
  spell_utilities.is_valid_number_loop s i
  = Some (i + Z.of_nat (String.length s)).
Proof.
  revert i. induction s as [|c s IH]; intros i H; simpl.
  - f_equal. lia.
  - simpl in H. apply andb_prop in H as [Hc Hs].
    rewrite (is_digit_not_nul c Hc).
    apply is_digit_range in Hc.
    destruct (digit_of c <? 0) eqn:E1; [lia|].
    destruct (digit_of c >? 9) eqn:E2; [lia|]. simpl.
    rewrite IH by assumption. f_equal. lia.
Qed.

Lemma is_valid_number_digits (s : string) :
  s <> "" -> digits_only s = true ->
  spell_utilities.is_valid_number s
  = (Z.of_nat (String.length s) <=? spell_utilities.MAX_DIGITS_ALLOWED).
Proof.
  intros Hne Hd. unfold spell_utilities.is_valid_number.
  destruct s as [|c s]; [congruence|].
  rewrite is_valid_number_loop_digits by assumption.
  rewrite Z.add_0_l.
  destruct (Z.of_nat _ >? _) eqn:E1; destruct (Z.of_nat _ <=? _) eqn:E2;
    try reflexivity; lia.
Qed.

(** ** The grouper *)

Lemma erase_front_all (s : string) (i : nat) :
  (String.length s <= i)%nat -> erase_front i s = "".
Proof.
  revert i. induction s as [|c s IH]; intros [|i] H; simpl in *;
    try reflexivity; try lia.
  apply IH. lia.
Qed.

Lemma substring_chunk (s : string) (i : nat) :
  (i + 3 <= String.length s)%nat ->
  String.length (substring i 3 s) = 3%nat
  /\ erase_front i s = substring i 3 s ++ erase_front (i + 3) s.
Proof.
  revert s. induction i as [|i IH]; intros s H.
  - destruct s as [|a [|b [|c s]]]; simpl in H; try lia.
    simpl. split; destruct s; reflexivity.
  - destruct s as [|a s]; simpl in H; [lia|].
    simpl. apply IH. lia.
Qed.

Lemma split_loop_spec (m : nat) :
  forall (s : string) (i : nat) (bucket : list string) (n : Z),
    String.length s = (i + 3 * m)%nat ->
    exists groups,
      spell_utilities.split_loop s i bucket n
      = (n + Z.of_nat m, (bucket ++ groups)%list)
      /\ List.length groups = m
      /\ Forall (fun g => String.length g = 3%nat) groups
      /\ flatten groups = erase_front i s.
Proof.
  induction m as [|m IH]; intros s i bucket n Hlen.
  - exists []. simp split_loop.
    destruct (lt_dec i (String.length s)) as [Hlt|Hge]; [lia|]. simpl.
    rewrite app_nil_r, Z.add_0_r, erase_front_all by lia.
    repeat split. constructor.
  - destruct (substring_chunk s i) as [H3 Hcut]; [lia|].
    destruct (IH s (i + 3)%nat (bucket ++ [substring i 3 s])%list (n + 1))
      as (groups & Hrun & Hcount & Hall & Hcat); [lia|].
    exists (substring i 3 s :: groups). simp split_loop.
    destruct (lt_dec i (String.length s)) as [Hlt|Hge]; [|lia]. simpl.
    rewrite Hrun, <- app_assoc. simpl.
    repeat split.
    + f_equal. lia.
    + now rewrite Hcount.
    + now constructor.
    + now rewrite Hcat, Hcut.
Qed.

Lemma split_groups (input : string) (bucket : list string) :
  exists groups,
    spell_utilities.split_number_to_buckets_of_3_digits input bucket
    = (Z.of_nat (List.length groups), (bucket ++ groups)%list)
    /\ List.length groups = ((String.length input + 2) / 3)%nat
    /\ Forall (fun g => String.length g = 3%nat) groups
    /\ flatten groups = padding (String.length input) ++ input.
Proof.
  unfold spell_utilities.split_number_to_buckets_of_3_digits, padding.
  remember (String.length input) as L eqn:HL.
  pose proof (Nat.div_mod_eq L 3) as Hdm.
  pose proof (Nat.mod_upper_bound L 3 ltac:(discriminate)) as Hr.
  assert (Hq : ((L + 2) / 3
                = L / 3 + (if (L mod 3 =? 0)%nat then 0 else 1))%nat).
  { pose proof (Nat.div_mod_eq (L + 2) 3).
    pose proof (Nat.mod_upper_bound (L + 2) 3 ltac:(discriminate)).
    destruct (Nat.eqb_spec (L mod 3) 0); lia. }
  rewrite Hq. clear Hq.
  destruct (L mod 3)%nat as [|[|[|r]]] eqn:Er; try lia; cbn [Nat.sub Nat.eqb];
    cbn [Nat.modulo Nat.divmod fst snd Nat.sub fill append].
  - destruct (split_loop_spec (L / 3) input 0 bucket 0)
      as (groups & Hrun & Hcount & Hall & Hcat); [lia|].
    exists groups. rewrite Hrun, Hcount, Z.add_0_l, Nat.add_0_r.
    repeat split; assumption.
  - destruct (split_loop_spec (L / 3 + 1) ("00" ++ input) 0 bucket 0)
      as (groups & Hrun & Hcount & Hall & Hcat);
      [rewrite length_append, <- HL; cbn [String.length]; lia|].
    exists groups. cbn [append] in *. rewrite Hrun, Hcount, Z.add_0_l.
    repeat split; assumption.
  - destruct (split_loop_spec (L / 3 + 1) ("0" ++ input) 0 bucket 0)
      as (groups & Hrun & Hcount & Hall & Hcat);
      [rewrite length_append, <- HL; cbn [String.length]; lia|].
    exists groups. cbn [append] in *. rewrite Hrun, Hcount, Z.add_0_l.
    repeat split; assumption.
Qed.

(** ** Groups and their words *)

Lemma group_shape (g : string) :
  is_group g = true ->
  exists a b c,
    g = String a (String b (String c ""))
    /\ is_digit a = true /\ is_digit b = true /\ is_digit c = true.
Proof.
  unfold is_group, digits_only. intros H. apply andb_prop in H as [Hl Hd].
  destruct g as [|a [|b [|c [|d g]]]]; try discriminate.
  simpl in Hd. rewrite andb_true_r in Hd.
  apply andb_prop in Hd as [Ha Hd]. apply andb_prop in Hd as [Hb Hc].
  now exists a, b, c.
Qed.

Lemma string_to_integer_group (a b c : ascii) :
  spell_utilities.string_to_integer (String a (String b (String c "")))
  = digit_of a * 100 + digit_of b * 10 + digit_of c * 1.
Proof. reflexivity. Qed.

Lemma group_value_range (g : string) :
  is_group g = true ->
  0 <= spell_utilities.string_to_integer g <= 999
  /\ 0 <= digit_of (at_ g 0) <= 9.
Proof.
  intros H. destruct (group_shape g H) as (a & b & c & -> & Ha & Hb & Hc).
  rewrite string_to_integer_group.
  apply is_digit_range in Ha, Hb, Hc.
  change (at_ (String a (String b (String c ""))) 0) with a. lia.
Qed.

Lemma index_array_in_bounds (table : list string) (i : Z) :
  0 <= i < Z.of_nat (List.length table) ->
  exists w, index_array table i = Some w.
Proof.
  intros H. unfold index_array.
  destruct (i <? 0) eqn:E; [lia|].
  destruct (nth_error table (Z.to_nat i)) as [w|] eqn:En; [now exists w|].
  apply nth_error_None in En. lia.
Qed.

(** Reads [table] at [idx], an index that the context bounds. *)
Ltac read_table table idx x Hx :=
  destruct (index_array_in_bounds table idx) as [x Hx];
  [ cbn [List.length spell_utilities.word_for_ones
         spell_utilities.word_for_teens spell_utilities.word_for_tens
         spell_utilities.name_for_big_numbers]; lia
  | rewrite ?Hx ].

Lemma spell_hundreds_group (g : string) (w : string) :
  is_group g = true ->
  exists x,
    spell_hundreds g (spell_utilities.string_to_integer g) w = Some (w ++ x).
Proof.
  intros H. destruct (group_value_range g H) as [_ Hd].
  unfold spell_hundreds.
  destruct (spell_utilities.string_to_integer g >? 99).
  - read_table spell_utilities.word_for_ones (digit_of (at_ g 0)) x Hx.
    eauto.
  - exists "". now rewrite append_nil_r.
Qed.

Lemma spell_tens_total (v : Z) (w : string) :
  exists v' x, spell_tens v w = Some (v', w ++ x).
Proof.
  unfold spell_tens.
  pose proof (Z.rem_bound_abs v 100 ltac:(lia)) as Hb.
  pose proof (Z.quot_rem' (Z.rem v 100) 10) as Hq.
  destruct ((Z.rem v 100 >? 10) && (Z.rem v 100 <? 20)) eqn:E1.
  - apply andb_prop in E1 as [E1 E2].
    read_table spell_utilities.word_for_teens (Z.rem v 100 - 10) x Hx.
    eauto.
  - destruct (Z.rem v 100 >=? 10) eqn:E2.
    + assert (0 <= Z.rem (Z.rem v 100) 10 < 10)
        by (apply Z.rem_bound_pos; lia).
      read_table spell_utilities.word_for_tens (Z.quot (Z.rem v 100) 10) x Hx.
      eauto.
    + exists (Z.rem v 100), "". now rewrite append_nil_r.
Qed.

Lemma spell_ones_total (v : Z) (w : string) :
  exists x, spell_ones v w = Some (w ++ x).
Proof.
  unfold spell_ones.
  destruct ((Z.rem v 10 >? 0) && (Z.rem v 10 <? 10)) eqn:E1.
  - apply andb_prop in E1 as [E1 E2].
    read_table spell_utilities.word_for_ones (Z.rem v 10) x Hx.
    eauto.
  - exists "". now rewrite append_nil_r.
Qed.

Lemma spell_bucket_group (g : string) (w : string) :
  is_group g = true ->
  exists x,
    spell_bucket g (spell_utilities.string_to_integer g) w = Some (w ++ x).
Proof.
  intros H. unfold spell_bucket.
  destruct (spell_hundreds_group g w H) as [x1 ->].
  destruct (spell_tens_total (spell_utilities.string_to_integer g) (w ++ x1))
    as (v' & x2 & ->).
  destruct (spell_ones_total v' ((w ++ x1) ++ x2)) as [x3 ->].
  exists (x1 ++ x2 ++ x3). now rewrite !append_assoc.
Qed.

(** ** One iteration of the loop of [do_spell] *)

Lemma do_spell_body_zero (bucket : list string) (i : nat) (st : spell_state)
    (g : string) :
  nth_error bucket i = Some g ->
  spell_utilities.string_to_integer g = 0 ->
  show_big_number_name st = false ->
  do_spell_body bucket i st
  = Some (mkState (this_ st) false (big_number st - 1)).
Proof.
  intros Hg Hv Hshow. unfold do_spell_body.
  rewrite Hg, Hv, Hshow. destruct st as [[d w wd] sh big]. reflexivity.
Qed.

Lemma do_spell_body_nonzero (bucket : list string) (i : nat)
    (st : spell_state) (g w' name : string) :
  nth_error bucket i = Some g ->
  spell_utilities.string_to_integer g <> 0 ->
  spell_bucket g (spell_utilities.string_to_integer g)
    (_number_in_words (this_ st)) = Some w' ->
  index_array spell_utilities.name_for_big_numbers (big_number st)
  = Some name ->
  do_spell_body bucket i st
  = Some (mkState
            (mkSpell (_number_in_digits (this_ st))
               (w' ++ (name ++ " "))
               ((_number_in_words_and_digits (this_ st)
                 ++ (spell_utilities.integer_to_string
                       (spell_utilities.string_to_integer g) ++ " "))
                ++ (name ++ " ")))
            false (big_number st - 1)).
Proof.
  intros Hg Hv Hw Hname. unfold do_spell_body.
  rewrite Hg. apply Z.eqb_neq in Hv. rewrite Hv.
  cbn [negb set_words_and_digits _number_in_words].
  rewrite Hw, Hname. reflexivity.
Qed.

Lemma do_spell_body_group (bucket : list string) (i : nat)
    (st : spell_state) (g : string) :
  nth_error bucket i = Some g ->
  is_group g = true ->
  show_big_number_name st = false ->
  0 <= big_number st <= 33 ->
  exists x y,
    do_spell_body bucket i st
    = Some (mkState
              (mkSpell (_number_in_digits (this_ st))
                 (_number_in_words (this_ st) ++ x)
                 (_number_in_words_and_digits (this_ st) ++ y))
              false (big_number st - 1))
    /\ (spell_utilities.string_to_integer g <> 0 -> x <> "" /\ y <> "").
Proof.
  intros Hg Hgrp Hshow Hbig.
  destruct (Z.eq_dec (spell_utilities.string_to_integer g) 0) as [Hv|Hv].
  - exists "", "". rewrite (do_spell_body_zero bucket i st g) by assumption.
    rewrite !append_nil_r. destruct st as [[d w wd] sh big].
    split; [reflexivity | congruence].
  - destruct (spell_bucket_group g (_number_in_words (this_ st)) Hgrp)
      as [x Hx].
    read_table spell_utilities.name_for_big_numbers (big_number st)
      name Hname.
    rewrite (do_spell_body_nonzero bucket i st g _ name Hg Hv Hx Hname).
    exists (x ++ (name ++ " ")),
      ((spell_utilities.integer_to_string
          (spell_utilities.string_to_integer g) ++ " ") ++ (name ++ " ")).
    rewrite !append_assoc. split; [reflexivity|].
    intros _. split; repeat apply append_nonempty_r; discriminate.
Qed.

(** ** The loop of [do_spell] *)

Lemma do_spell_loop_S (n : nat) (bucket : list string) (i : nat)
    (st : spell_state) :
  do_spell_loop (S n) bucket i st
  = (st' <- do_spell_body bucket i st ;; do_spell_loop n bucket (S i) st').
Proof. reflexivity. Qed.

Lemma do_spell_loop_snoc (k : nat) :
  forall (bucket : list string) (i : nat) (st : spell_state),
    do_spell_loop (S k) bucket i st
    = (st' <- do_spell_loop k bucket i st ;;
       do_spell_body bucket (i + k) st').
Proof.
  induction k as [|k IH]; intros bucket i st.
  - simpl. rewrite Nat.add_0_r.
    now destruct (do_spell_body bucket i st).
  - rewrite (do_spell_loop_S (S k) bucket i st),
      (do_spell_loop_S k bucket i st).
    destruct (do_spell_body bucket i st) as [st1|]; [|reflexivity].
    rewrite IH. now replace (S i + k)%nat with (i + S k)%nat by lia.
Qed.

Lemma do_spell_loop_groups (k : nat) :
  forall (bucket : list string) (i : nat) (st : spell_state),
    Forall (fun g => is_group g = true) bucket ->
    (i + k <= List.length bucket)%nat ->
    show_big_number_name st = false ->
    Z.of_nat k - 1 <= big_number st <= 33 ->
    exists x y,
      do_spell_loop k bucket i st
      = Some (mkState
                (mkSpell (_number_in_digits (this_ st))
                   (_number_in_words (this_ st) ++ x)
                   (_number_in_words_and_digits (this_ st) ++ y))
                false (big_number st - Z.of_nat k)).
Proof.
  induction k as [|k IH]; intros bucket i st Hall Hlen Hshow Hbig.
  - exists "", "". simpl. rewrite !append_nil_r, Z.sub_0_r.
    destruct st as [[d w wd] sh big]. simpl in *. now subst sh.
  - destruct (nth_error bucket i) as [g|] eqn:Hg;
      [|apply nth_error_None in Hg; lia].
    assert (Hgrp : is_group g = true).
    { apply nth_error_In in Hg. rewrite Forall_forall in Hall. auto. }
    destruct (do_spell_body_group bucket i st g Hg Hgrp Hshow)
      as (x1 & y1 & Hbody & _); [lia|].
    cbn [do_spell_loop]. rewrite Hbody.
    match goal with
    | |- context [do_spell_loop k bucket (S i) ?s] => set (st1 := s)
    end.
    destruct (IH bucket (S i) st1 Hall) as (x2 & y2 & Hrest);
      [lia | reflexivity | cbn [st1 big_number]; lia |].
    rewrite Hrest. cbn [st1 this_ big_number _number_in_digits
                        _number_in_words _number_in_words_and_digits].
    clear st1 Hrest. exists (x1 ++ x2), (y1 ++ y2). rewrite !append_assoc.
    do 2 f_equal. lia.
Qed.

Lemma flatten_groups_digits (groups : list string) :
  Forall (fun g => String.length g = 3%nat) groups ->
  digits_only (flatten groups) = true ->
  Forall (fun g => is_group g = true) groups.
Proof.
  induction 1 as [|g groups Hg _ IH]; intros Hd; constructor.
  - simpl in Hd. unfold digits_only in Hd.
    rewrite string_forall_append in Hd. apply andb_prop in Hd as [Hd _].
    unfold is_group. now rewrite Hg, Nat.eqb_refl.
  - apply IH. simpl in Hd. unfold digits_only in *.
    rewrite string_forall_append in Hd. now apply andb_prop in Hd as [_ Hd].
Qed.

Lemma valid_number_inv (s : string) :
  valid_number s = true ->
  normalized s = true /\ digits_only s = true
  /\ (1 <= String.length s <= 102)%nat.
Proof.
  unfold valid_number. intros H. apply andb_prop in H as [Hn Hl].
  split; [assumption|].
  apply Z.leb_le in Hl. change spell_utilities.MAX_DIGITS_ALLOWED with 102 in Hl.
  destruct s as [|c s]; [discriminate|].
  unfold normalized in Hn. apply andb_prop in Hn as [_ Hd].
  split; [assumption|]. cbn [String.length] in *. lia.
Qed.

(** The state on entry to the loop, for a valid number. *)
Lemma do_spell_init_valid (this : Spell) :
  valid_number (_number_in_digits this) = true ->
  exists groups,
    do_spell_init this
    = (Z.of_nat (List.length groups), groups,
       mkState (mkSpell (_number_in_digits this) "" "") false
         (Z.of_nat (List.length groups) - 1))
    /\ (1 <= List.length groups <= 34)%nat
    /\ Forall (fun g => is_group g = true) groups
    /\ flatten groups
       = padding (String.length (_number_in_digits this))
         ++ _number_in_digits this.
Proof.
  intros Hv. apply valid_number_inv in Hv as (Hn & Hd & Hl).
  destruct (split_groups (_number_in_digits this) [])
    as (groups & Hrun & Hcount & Hall & Hcat).
  exists groups. unfold do_spell_init.
  cbn [set_words set_words_and_digits _number_in_digits].
  rewrite Hrun. cbn [app]. repeat split.
  - pose proof (Nat.div_mod_eq (String.length (_number_in_digits this) + 2) 3).
    pose proof (Nat.mod_upper_bound
                  (String.length (_number_in_digits this) + 2) 3
                  ltac:(discriminate)).
    lia.
  - pose proof (Nat.div_mod_eq (String.length (_number_in_digits this) + 2) 3).
    lia.
  - apply flatten_groups_digits; [assumption|].
    rewrite Hcat. unfold digits_only, padding.
    rewrite string_forall_append, string_forall_fill by reflexivity.
    exact Hd.
  - exact Hcat.
Qed.

(** The state before iteration [k], for a valid number. *)
Lemma do_spell_upto_valid (this : Spell) (groups : list string) (k : nat) :
  valid_number (_number_in_digits this) = true ->
  snd (fst (do_spell_init this)) = groups ->
  (k <= List.length groups)%nat ->
  exists x y,
    do_spell_upto k this
    = Some (mkState (mkSpell (_number_in_digits this) x y) false
              (Z.of_nat (List.length groups) - 1 - Z.of_nat k)).
Proof.
  intros Hv Hgroups Hk.
  destruct (do_spell_init_valid this Hv)
    as (groups' & Hinit & Hn & Hall & _).
  rewrite Hinit in Hgroups. cbn [fst snd] in Hgroups. subst groups'.
  unfold do_spell_upto. rewrite Hinit.
  edestruct (do_spell_loop_groups k groups 0) as (x & y & Hrun);
    [exact Hall | | | | rewrite Hrun];
    cbn [show_big_number_name big_number]; try lia; try reflexivity.
  cbn [this_ _number_in_digits _number_in_words
       _number_in_words_and_digits append]. eauto.
Qed.

Lemma do_spell_as_upto (this : Spell) :
  do_spell this
  = (st <- do_spell_upto (List.length (snd (fst (do_spell_init this)))) this ;;
     Some (this_ st)).
Proof.
  unfold do_spell, do_spell_upto, do_spell_init.
  destruct (split_groups
              (_number_in_digits
                 (set_words_and_digits (set_words this "") "")) [])
    as (groups & Hrun & _).
  rewrite Hrun. cbn [fst snd app]. now rewrite Nat2Z.id.
Qed.

(** ** The leading group of a normalized number *)

Lemma strip_leading_normalized (s : string) :
  digits_only s = true -> all_zeros s = false ->
  normalized (strip_leading "0" s) = true.
Proof.
  unfold digits_only, all_zeros.
  induction s as [|c s IH]; cbn [string_forall strip_leading];
    [discriminate|].
  intros Hd Hz. apply andb_prop in Hd as [Hc Hd].
  destruct (Ascii.eqb c "0") eqn:E; [now apply IH|].
  unfold normalized, digits_only. cbn [string_forall].
  now rewrite E, Hc, Hd.
Qed.

Lemma length_strip_leading (c : ascii) (s : string) :
  (String.length (strip_leading c s) <= String.length s)%nat.
Proof.
  induction s as [|x s IH]; simpl; [lia|].
  destruct (Ascii.eqb x c); simpl; lia.
Qed.

Lemma first_group_nonzero (number : string) (g : string)
    (groups : list string) :
  normalized number = true ->
  is_group g = true ->
  flatten (g :: groups) = padding (String.length number) ++ number ->
  spell_utilities.string_to_integer g <> 0.
Proof.
  intros Hn Hg Hcat.
  destruct (group_shape g Hg) as (a & b & c & -> & Ha & Hb & Hc).
  destruct number as [|d number]; [discriminate|].
  unfold normalized in Hn. apply andb_prop in Hn as [Hd0 Hd].
  apply andb_prop in Hd as [Hd _].
  assert (Hnz : digit_of d <> 0).
  { intros E. apply digit_of_zero_char in E; [|assumption].
    subst d. discriminate. }
  apply is_digit_range in Ha, Hb, Hc, Hd.
  rewrite string_to_integer_group.
  unfold padding in Hcat.
  pose proof (Nat.mod_upper_bound
                (3 - String.length (String d number) mod 3) 3
                ltac:(discriminate)) as Hpad.
  destruct ((3 - String.length (String d number) mod 3) mod 3)%nat
    as [|[|[|p]]]; [| | |lia]; cbn [flatten fold_right fill append] in Hcat.
  - assert (a = d) by congruence. subst a. lia.
  - assert (b = d) by congruence. subst b. lia.
  - assert (c = d) by congruence. subst c. lia.
Qed.

(** [do_spell] returns on every valid number, with something in both
    results. *)
Lemma do_spell_valid (this : Spell) :
  valid_number (_number_in_digits this) = true ->
  exists x y,
    do_spell this = Some (mkSpell (_number_in_digits this) x y)
    /\ x <> "" /\ y <> "".
Proof.
  intros Hv.
  destruct (do_spell_init_valid this Hv)
    as (groups & Hinit & Hn & Hall & Hcat).
  destruct (valid_number_inv _ Hv) as (Hnorm & _ & _).
  destruct groups as [|g groups]; [cbn in Hn; lia|].
  pose proof (first_group_nonzero _ g groups Hnorm
                (Forall_inv Hall) Hcat) as Hg.
  unfold do_spell. rewrite Hinit, Nat2Z.id.
  cbn [List.length] in *. rewrite do_spell_loop_S.
  match goal with
  | |- context [do_spell_body _ 0 ?s] => set (st0 := s)
  end.
  destruct (do_spell_body_group (g :: groups) 0 st0 g eq_refl
              (Forall_inv Hall) eq_refl)
    as (x1 & y1 & Hbody & Hne); [cbn [st0 big_number]; lia|].
  destruct (Hne Hg) as [Hx1 Hy1]. rewrite Hbody.
  match goal with
  | |- context [do_spell_loop _ _ 1 ?s] => set (st1 := s)
  end.
  destruct (do_spell_loop_groups (List.length groups) (g :: groups) 1 st1
              Hall) as (x2 & y2 & Hrest);
    [cbn [List.length]; lia | reflexivity
    | cbn [st1 st0 big_number]; lia |].
  rewrite Hrest.
  cbn [st1 st0 this_ _number_in_digits _number_in_words
       _number_in_words_and_digits append].
  exists (x1 ++ x2), (y1 ++ y2).
  repeat split; now apply append_nonempty_l.
Qed.

Lemma do_spell_upto_S (k : nat) (this : Spell) :
  do_spell_upto (S k) this
  = (st <- do_spell_upto k this ;;
     do_spell_body (snd (fst (do_spell_init this))) k st).
Proof.
  unfold do_spell_upto.
  destruct (do_spell_init this) as [[n bucket] st0]. cbn [fst snd].
  now rewrite do_spell_loop_snoc.
Qed.

(** * The properties *)

(** ** Validation and normalization *)

Lemma set_number_in_digits_normalized (s : string) (this : Spell) :
  normalized s = true ->
  set_number_in_digits s this
  = if Z.of_nat (String.length s) <=? spell_utilities.MAX_DIGITS_ALLOWED
    then (Returned, set_digits this s)
    else (Thrown InvalidNumber, this).
Proof.
  intros Hn. unfold set_number_in_digits.
  rewrite (sanitize_normalized s Hn).
  assert (Hne : s <> "") by (destruct s; [discriminate | congruence]).
  assert (Hd : digits_only s = true).
  { destruct s; [discriminate|]. unfold normalized in Hn.
    now apply andb_prop in Hn as [_ Hn]. }
  rewrite (is_valid_number_digits s Hne Hd).
  now destruct (Z.of_nat (String.length s) <=? _).
Qed.

(** C1, as the code has it: the maximum that validation enforces is
    [MAX_DIGITS_ALLOWED = 99 + 2 + 1 = 102] digits.  [set_number_in_digits]
    accepts every normalized digit string of at most 102 digits (so every
    one of exactly 101 digits, and every one of exactly 102), and raises
    the InvalidNumber error on every one of 103 digits or more. *)
Theorem validation_maximum_is_102_digits (s : string) (this : Spell) :
  normalized s = true ->
  ((String.length s <= 102)%nat ->
   set_number_in_digits s this = (Returned, set_digits this s))
  /\ ((103 <= String.length s)%nat ->
      set_number_in_digits s this = (Thrown InvalidNumber, this)).
Proof.
  intros Hn. rewrite (set_number_in_digits_normalized s this Hn).
  change spell_utilities.MAX_DIGITS_ALLOWED with 102.
  split; intros Hl.
  - destruct (Z.of_nat (String.length s) <=? 102) eqn:E;
      [reflexivity | lia].
  - destruct (Z.of_nat (String.length s) <=? 102) eqn:E;
      [lia | reflexivity].
Qed.

Lemma validation_maximum_is_102_digits_witness :
  set_number_in_digits (fill 102 "1") (mkSpell "" "" "")
  = (Returned, mkSpell (fill 102 "1") "" "")
  /\ set_number_in_digits (fill 103 "1") (mkSpell "" "" "")
     = (Thrown InvalidNumber, mkSpell "" "" "").
Proof.
  split.
  - apply (validation_maximum_is_102_digits
             (fill 102 "1") (mkSpell "" "" "")); [reflexivity|].
    rewrite length_fill. lia.
  - apply (validation_maximum_is_102_digits
             (fill 103 "1") (mkSpell "" "" "")); [reflexivity|].
    rewrite length_fill. lia.
Defined.

(** C1 as stated fails: the string of 102 digits ['1'] is normalized and has
    102 digits, and [set_number_in_digits] does not raise on it. *)
Lemma validation_accepts_102_digits :
  ~ (forall (s : string) (this : Spell),
        normalized s = true ->
        (102 <= String.length s)%nat ->
        fst (set_number_in_digits s this) = Thrown InvalidNumber).
Proof.
  intros H.
  specialize (H (fill 102 "1") (mkSpell "" "" "") eq_refl).
  rewrite length_fill in H. specialize (H (Nat.le_refl 102)).
  vm_compute in H. discriminate H.
Qed.

(** C7: for every input made of ['0'] and [','] characters only, the empty
    string and ["0"] among them, normalization leaves the empty string,
    [set_number_in_digits] raises the InvalidNumber error (leaving the
    object as it was), and so does the constructor: no object, hence no
    conversion result, is produced. *)
Theorem zeros_and_commas_are_rejected (s : string) :
  zeros_and_commas s = true ->
  sanitize s = ""
  /\ (forall this : Spell,
         set_number_in_digits s this = (Thrown InvalidNumber, this))
  /\ Spell_new s = inl InvalidNumber
  /\ spell s = inl InvalidNumber.
Proof.
  intros H. pose proof (sanitize_zeros_and_commas s H) as Hs.
  assert (Hset : forall this : Spell,
             set_number_in_digits s this = (Thrown InvalidNumber, this)).
  { intros this. unfold set_number_in_digits. now rewrite Hs. }
  repeat split; try assumption.
  - unfold Spell_new. now rewrite Hset.
  - unfold spell, Spell_new. now rewrite Hset.
Qed.

Lemma zeros_and_commas_are_rejected_witness :
  sanitize "0,000" = ""
  /\ (forall this : Spell,
         set_number_in_digits "0,000" this = (Thrown InvalidNumber, this))
  /\ Spell_new "0,000" = inl InvalidNumber
  /\ spell "0,000" = inl InvalidNumber.
Proof. apply (zeros_and_commas_are_rejected "0,000"). reflexivity. Defined.

(** C8: for every raw input, the normalized digit string is the
    normalization of the input with every [','] deleted; the characters
    that remain keep their order, the normalized string being what follows
    the leading zeros of the comma-free input; so [set_number_in_digits]
    does the same on both.  In particular ["1,234,567"] and ["1234567"]
    normalize to the same string. *)
Theorem normalization_ignores_commas (raw : string) :
  sanitize raw = sanitize (delete_char "," raw)
  /\ (exists n, delete_char "," raw = fill n "0" ++ sanitize raw)
  /\ (forall this : Spell,
         set_number_in_digits raw this
         = set_number_in_digits (delete_char "," raw) this)
  /\ sanitize "1,234,567" = sanitize "1234567".
Proof.
  assert (H : sanitize raw = sanitize (delete_char "," raw))
    by now rewrite !sanitize_spec, delete_char_idem.
  repeat split.
  - exact H.
  - exists (count_leading "0" (delete_char "," raw)).
    rewrite sanitize_spec. apply strip_leading_split.
  - intros this. unfold set_number_in_digits. now rewrite <- H.
Qed.

(** C9: for every object and every input that passes validation,
    [set_number_in_digits] returns and changes [_number_in_digits] only:
    [_number_in_words] and [_number_in_words_and_digits] are as before. *)
Theorem set_number_in_digits_keeps_results (this : Spell) (given : string) :
  spell_utilities.is_valid_number (sanitize given) = true ->
  exists this',
    set_number_in_digits given this = (Returned, this')
    /\ _number_in_digits this' = sanitize given
    /\ _number_in_words this' = _number_in_words this
    /\ _number_in_words_and_digits this' = _number_in_words_and_digits this.
Proof.
  intros Hv. unfold set_number_in_digits. rewrite Hv.
  exists (set_digits this (sanitize given)). repeat split.
Qed.

Lemma set_number_in_digits_keeps_results_witness :
  exists this',
    set_number_in_digits "1,001" (mkSpell "14" "fourteen  " "14  ")
    = (Returned, this')
    /\ _number_in_digits this' = sanitize "1,001"
    /\ _number_in_words this' = "fourteen  "
    /\ _number_in_words_and_digits this' = "14  ".
Proof.
  apply (set_number_in_digits_keeps_results
           (mkSpell "14" "fourteen  " "14  ") "1,001").
  reflexivity.
Defined.

(** C10: for every object and every input whose normalization fails
    validation, [set_number_in_digits] raises the InvalidNumber error and
    the object, [_number_in_digits] included, is as before the call. *)
Theorem set_number_in_digits_failure_has_no_effect
    (this : Spell) (given : string) :
  spell_utilities.is_valid_number (sanitize given) = false ->
  set_number_in_digits given this = (Thrown InvalidNumber, this).
Proof. intros Hv. unfold set_number_in_digits. now rewrite Hv. Qed.

Lemma set_number_in_digits_failure_has_no_effect_witness :
  set_number_in_digits "12x" (mkSpell "14" "fourteen  " "14  ")
  = (Thrown InvalidNumber, mkSpell "14" "fourteen  " "14  ").
Proof.
  apply (set_number_in_digits_failure_has_no_effect
           (mkSpell "14" "fourteen  " "14  ") "12x").
  reflexivity.
Defined.

(** ** The grouper *)

(** C6: for every string of length [L] (every non-empty digit string among
    them), the grouper puts [(3 - L mod 3) mod 3] zero characters in front,
    pushes [ceil (L / 3)] groups of exactly 3 characters each, whose
    concatenation in the order pushed is the padded input, and returns the
    number of groups. *)
Theorem grouper_pads_and_slices (input : string) (bucket : list string) :
  exists groups,
    spell_utilities.split_number_to_buckets_of_3_digits input bucket
    = (Z.of_nat (List.length groups), (bucket ++ groups)%list)
    /\ List.length groups = ((String.length input + 2) / 3)%nat
    /\ Forall (fun g => String.length g = 3%nat) groups
    /\ flatten groups
       = fill ((3 - String.length input mod 3) mod 3) "0" ++ input.
Proof. exact (split_groups input bucket). Qed.

(** ** Spelling *)

(** C3: for every digit string of 1 to 101 digits that is not all zeros,
    the constructor accepts it and stores its normalization, [do_spell]
    returns, and afterwards [number_in_words] and
    [number_in_words_and_digits] are both non-empty. *)
Theorem spell_returns_nonempty_results (D : string) :
  (1 <= String.length D <= 101)%nat ->
  digits_only D = true ->
  all_zeros D = false ->
  exists sp sp',
    Spell_new D = inr sp
    /\ _number_in_digits sp = sanitize D
    /\ do_spell sp = Some sp'
    /\ number_in_words sp' <> ""
    /\ number_in_words_and_digits sp' <> "".
Proof.
  intros Hlen Hd Hz.
  pose proof (strip_leading_normalized D Hd Hz) as Hn.
  pose proof (length_strip_leading "0" D) as Hle.
  assert (Hs : sanitize D = strip_leading "0" D)
    by now rewrite sanitize_spec, delete_char_digits.
  rewrite <- Hs in Hn, Hle.
  assert (Hv : valid_number (sanitize D) = true).
  { unfold valid_number. rewrite Hn.
    change spell_utilities.MAX_DIGITS_ALLOWED with 102.
    apply Z.leb_le. lia. }
  assert (Hnew : Spell_new D = inr (mkSpell (sanitize D) "" "")).
  { destruct (valid_number_inv _ Hv) as (_ & Hds & Hls).
    unfold Spell_new, set_number_in_digits.
    rewrite is_valid_number_digits;
      [|destruct (sanitize D); [discriminate | congruence] | assumption].
    unfold valid_number in Hv. apply andb_prop in Hv as [_ ->].
    reflexivity. }
  destruct (do_spell_valid (mkSpell (sanitize D) "" "") Hv)
    as (x & y & Hrun & Hx & Hy).
  exists (mkSpell (sanitize D) "" ""), (mkSpell (sanitize D) x y).
  repeat split; assumption.
Qed.

Lemma spell_returns_nonempty_results_witness :
  exists sp sp',
    Spell_new "007" = inr sp
    /\ _number_in_digits sp = sanitize "007"
    /\ do_spell sp = Some sp'
    /\ number_in_words sp' <> ""
    /\ number_in_words_and_digits sp' <> "".
Proof.
  apply (spell_returns_nonempty_results "007");
    [cbn [String.length]; lia | reflexivity | reflexivity].
Defined.

(** C4: for every valid number, a group whose value is 0 contributes
    nothing: the object is the same after its iteration as before it, so
    neither result gets a numeral, a word or a name.  In particular
    ["1,000,000"] gives ["one million "] and ["1 million "]. *)
Theorem zero_group_contributes_nothing :
  (forall (this : Spell) (k : nat) (g : string),
      valid_number (_number_in_digits this) = true ->
      nth_error (snd (fst (do_spell_init this))) k = Some g ->
      spell_utilities.string_to_integer g = 0 ->
      exists st st',
        do_spell_upto k this = Some st
        /\ do_spell_upto (S k) this = Some st'
        /\ this_ st' = this_ st)
  /\ spell "1,000,000" = inr (Some ("one million ", "1 million ")).
Proof.
  split; [|reflexivity].
  intros this k g Hv Hg Hz.
  assert (Hk : (k < List.length (snd (fst (do_spell_init this))))%nat)
    by (apply nth_error_Some; congruence).
  destruct (do_spell_upto_valid this _ k Hv eq_refl) as (x & y & Hrun);
    [lia|].
  rewrite do_spell_upto_S, Hrun.
  erewrite do_spell_body_zero; [|exact Hg|exact Hz|reflexivity].
  eexists. eexists. repeat split.
Qed.

Lemma zero_group_contributes_nothing_witness :
  exists st st',
    do_spell_upto 1 (mkSpell "1000000" "" "") = Some st
    /\ do_spell_upto 2 (mkSpell "1000000" "" "") = Some st'
    /\ this_ st' = this_ st.
Proof.
  apply (proj1 zero_group_contributes_nothing
           (mkSpell "1000000" "" "") 1%nat "000"); reflexivity.
Defined.

(** C5: for every group of three digits, with [w1] the words after the
    hundreds: if the value mod 100 lies in 11..19, the tens step appends the
    one word of the teens table at index (value mod 100) - 10 and sets the
    number to 0, so that the whole group appends that word and no ones word;
    if the value mod 100 is 10, the tens step appends ["ten"], entry 1 of the
    tens table, and that is all the group appends after the hundreds. *)
Theorem teens_and_ten (g : string) (w : string) :
  is_group g = true ->
  exists w1,
    spell_hundreds g (spell_utilities.string_to_integer g) w = Some w1
    /\ (11 <= spell_utilities.string_to_integer g mod 100 <= 19 ->
        exists teen,
          index_array spell_utilities.word_for_teens
            (spell_utilities.string_to_integer g mod 100 - 10) = Some teen
          /\ teen <> ""
          /\ spell_tens (spell_utilities.string_to_integer g) w1
             = Some (0, w1 ++ (teen ++ " "))
          /\ spell_bucket g (spell_utilities.string_to_integer g) w
             = Some (w1 ++ (teen ++ " ")))
    /\ (spell_utilities.string_to_integer g mod 100 = 10 ->
        index_array spell_utilities.word_for_tens 1 = Some "ten"
        /\ spell_tens (spell_utilities.string_to_integer g) w1
           = Some (10, w1 ++ ("ten" ++ " "))
        /\ spell_bucket g (spell_utilities.string_to_integer g) w
           = Some (w1 ++ ("ten" ++ " "))).
Proof.
  intros Hg. destruct (spell_hundreds_group g w Hg) as [x Hx].
  destruct (group_value_range g Hg) as [Hv _].
  exists (w ++ x). split; [exact Hx|].
  unfold spell_bucket. rewrite Hx. unfold spell_tens.
  rewrite (Z.rem_mod_nonneg (spell_utilities.string_to_integer g) 100)
    by lia.
  split.
  - intros Hteen.
    assert (Hcases :
              spell_utilities.string_to_integer g mod 100 = 11
              \/ spell_utilities.string_to_integer g mod 100 = 12
              \/ spell_utilities.string_to_integer g mod 100 = 13
              \/ spell_utilities.string_to_integer g mod 100 = 14
              \/ spell_utilities.string_to_integer g mod 100 = 15
              \/ spell_utilities.string_to_integer g mod 100 = 16
              \/ spell_utilities.string_to_integer g mod 100 = 17
              \/ spell_utilities.string_to_integer g mod 100 = 18
              \/ spell_utilities.string_to_integer g mod 100 = 19) by lia.
    repeat (destruct Hcases as [E|Hcases]; [rewrite E; clear E|]);
      [..| rewrite Hcases];
      (eexists; split; [reflexivity|]; split; [discriminate|];
       split; reflexivity).
  - intros E. rewrite E. repeat split.
Qed.

Lemma teens_and_ten_witness :
  exists w1,
    spell_hundreds "014" (spell_utilities.string_to_integer "014") ""
    = Some w1
    /\ (11 <= spell_utilities.string_to_integer "014" mod 100 <= 19 ->
        exists teen,
          index_array spell_utilities.word_for_teens
            (spell_utilities.string_to_integer "014" mod 100 - 10)
          = Some teen
          /\ teen <> ""
          /\ spell_tens (spell_utilities.string_to_integer "014") w1
             = Some (0, w1 ++ (teen ++ " "))
          /\ spell_bucket "014" (spell_utilities.string_to_integer "014") ""
             = Some (w1 ++ (teen ++ " ")))
    /\ (spell_utilities.string_to_integer "014" mod 100 = 10 ->
        index_array spell_utilities.word_for_tens 1 = Some "ten"
        /\ spell_tens (spell_utilities.string_to_integer "014") w1
           = Some (10, w1 ++ ("ten" ++ " "))
        /\ spell_bucket "014" (spell_utilities.string_to_integer "014") ""
           = Some (w1 ++ ("ten" ++ " "))).
Proof. apply (teens_and_ten "014" ""). reflexivity. Defined.

(** C2, as the code has it: for every valid number whose least-significant
    group (scale index 0) is nonzero, after that group's words and numeral
    the loop appends the name at index 0 followed by a space, that is
    exactly one space, to each result.  In particular ["14"] gives
    ["fourteen  "] and ["14  "], with two trailing spaces each. *)
Theorem units_group_is_followed_by_a_space :
  (forall (this : Spell) (n : nat) (bucket : list string)
          (st0 : spell_state) (last : string),
      valid_number (_number_in_digits this) = true ->
      do_spell_init this = (Z.of_nat (S n), bucket, st0) ->
      nth_error bucket n = Some last ->
      spell_utilities.string_to_integer last <> 0 ->
      exists st w',
        do_spell_upto n this = Some st
        /\ big_number st = 0
        /\ spell_bucket last (spell_utilities.string_to_integer last)
             (_number_in_words (this_ st)) = Some w'
        /\ do_spell this
           = Some (mkSpell (_number_in_digits this)
                     (w' ++ " ")
                     ((_number_in_words_and_digits (this_ st)
                       ++ (spell_utilities.integer_to_string
                             (spell_utilities.string_to_integer last)
                           ++ " "))
                      ++ " ")))
  /\ spell "14" = inr (Some ("fourteen  ", "14  ")).
Proof.
  split; [|reflexivity].
  intros this n bucket st0 last Hv Hinit Hlast Hnz.
  destruct (do_spell_init_valid this Hv)
    as (groups & Hinit' & _ & Hall & _).
  assert (Hgroups : snd (fst (do_spell_init this)) = bucket)
    by now rewrite Hinit.
  assert (Hcount : List.length bucket = S n).
  { rewrite Hinit' in Hinit. injection Hinit as Hc Hb _.
    subst groups. now apply Nat2Z.inj. }
  assert (Hb : groups = bucket)
    by (rewrite Hinit' in Hgroups; exact Hgroups).
  subst groups.
  destruct (do_spell_upto_valid this bucket n Hv Hgroups) as (x & y & Hrun);
    [lia|].
  assert (Hgrp : is_group last = true).
  { apply nth_error_In in Hlast. rewrite Forall_forall in Hall. auto. }
  destruct (spell_bucket_group last x Hgrp) as [x' Hx'].
  eexists. exists (x ++ x').
  split; [exact Hrun|]. cbn [big_number this_ _number_in_words
                             _number_in_words_and_digits].
  split; [lia|]. split; [exact Hx'|].
  rewrite do_spell_as_upto, Hgroups, Hcount, do_spell_upto_S, Hrun, Hgroups.
  erewrite do_spell_body_nonzero with (name := "");
    [reflexivity | exact Hlast | exact Hnz | exact Hx' |].
  cbn [big_number]. rewrite Hcount.
  replace (Z.of_nat (S n) - 1 - Z.of_nat n) with 0 by lia.
  reflexivity.
Qed.

Lemma units_group_is_followed_by_a_space_witness :
  exists st w',
    do_spell_upto 1 (mkSpell "1014" "" "") = Some st
    /\ big_number st = 0
    /\ spell_bucket "014" (spell_utilities.string_to_integer "014")
         (_number_in_words (this_ st)) = Some w'
    /\ do_spell (mkSpell "1014" "" "")
       = Some (mkSpell "1014"
                 (w' ++ " ")
                 ((_number_in_words_and_digits (this_ st)
                   ++ (spell_utilities.integer_to_string
                         (spell_utilities.string_to_integer "014")
                       ++ " "))
                  ++ " ")).
Proof.
  apply (proj1 units_group_is_followed_by_a_space
           (mkSpell "1014" "" "") 1%nat ["001"; "014"]
           (mkState (mkSpell "1014" "" "") false 1) "014");
    [reflexivity | reflexivity | reflexivity | discriminate].
Defined.

(** C2 as stated fails on ["14"]: the results are ["fourteen  "] and
    ["14  "], with the space that follows the empty name, and not
    ["fourteen "] and ["14 "]. *)
Lemma fourteen_has_two_trailing_spaces :
  spell "14" = inr (Some ("fourteen  ", "14  "))
  /\ spell "14" <> inr (Some ("fourteen ", "14 ")).
Proof. split; [reflexivity | discriminate]. Qed.

(** * Further properties of the code *)

(** ** Normalization *)

Lemma string_forall_delete_char (p : ascii -> bool) (value : ascii)
    (s : string) :
  string_forall p s = true -> string_forall p (delete_char value s) = true.
Proof.
  induction s as [|c s IH]; cbn [string_forall delete_char];
    [reflexivity|].
  intros H. apply andb_prop in H as [Hc Hs].
  destruct (Ascii.eqb c value); [now apply IH|].
  cbn [string_forall]. now rewrite Hc, IH.
Qed.

Lemma string_forall_strip_leading (p : ascii -> bool) (c : ascii)
    (s : string) :
  string_forall p s = true -> string_forall p (strip_leading c s) = true.
Proof.
  induction s as [|x s IH]; cbn [string_forall strip_leading];
    [reflexivity|].
  intros H. destruct (Ascii.eqb x c).
  - apply andb_prop in H as [_ Hs]. now apply IH.
  - exact H.
Qed.

Lemma no_comma_delete_char (s : string) :
  no_comma (delete_char "," s) = true.
Proof.
  unfold no_comma.
  induction s as [|c s IH]; cbn [string_forall delete_char];
    [reflexivity|].
  destruct (Ascii.eqb c ",") eqn:E; [exact IH|].
  cbn [string_forall]. now rewrite E, IH.
Qed.

Lemma delete_char_no_comma (s : string) :
  no_comma s = true -> delete_char "," s = s.
Proof.
  unfold no_comma.
  induction s as [|c s IH]; cbn [string_forall delete_char];
    [reflexivity|].
  intros H. apply andb_prop in H as [Hc Hs].
  destruct (Ascii.eqb c ","); [discriminate|]. now rewrite IH.
Qed.

Lemma strip_leading_head (c : ascii) (s : string) :
  forall x rest, strip_leading c s = String x rest -> x <> c.
Proof.
  induction s as [|y s IH]; cbn [strip_leading]; intros x rest H;
    [discriminate|].
  destruct (Ascii.eqb y c) eqn:E; [now apply (IH x rest)|].
  injection H as -> _. now apply Ascii.eqb_neq.
Qed.

Lemma strip_leading_idem (c : ascii) (s : string) :
  strip_leading c (strip_leading c s) = strip_leading c s.
Proof.
  induction s as [|y s IH]; cbn [strip_leading]; [reflexivity|].
  destruct (Ascii.eqb y c) eqn:E; [exact IH|].
  cbn [strip_leading]. now rewrite E.
Qed.

Lemma sanitize_no_comma_no_zero (raw : string) :
  no_comma (sanitize raw) = true
  /\ (forall c rest, sanitize raw = String c rest -> c <> "0"%char).
Proof.
  rewrite sanitize_spec. split.
  - apply string_forall_strip_leading, no_comma_delete_char.
  - apply strip_leading_head.
Qed.

(** X1: the normalized string holds no comma and does not start with
    ['0'], whatever the input. *)
Theorem sanitize_shape (raw : string) :
  no_comma (sanitize raw) = true
  /\ (forall c rest, sanitize raw = String c rest -> c <> "0"%char).
Proof. exact (sanitize_no_comma_no_zero raw). Qed.

Lemma sanitize_shape_witness : "7"%char <> "0"%char.
Proof. apply (proj2 (sanitize_shape "0,07") "7"%char ""). reflexivity. Defined.

(** X2: normalizing twice is normalizing once. *)
Theorem sanitize_idempotent (raw : string) :
  sanitize (sanitize raw) = sanitize raw.
Proof.
  rewrite (sanitize_spec (sanitize raw)).
  rewrite delete_char_no_comma by apply sanitize_no_comma_no_zero.
  rewrite sanitize_spec. apply strip_leading_idem.
Qed.

(** X3: zeros and commas in front of an input do not change what it
    normalizes to. *)
Theorem sanitize_ignores_leading_zeros (lead raw : string) :
  zeros_and_commas lead = true ->
  sanitize (lead ++ raw) = sanitize raw.
Proof.
  intros H. rewrite !sanitize_spec.
  induction lead as [|c lead IH]; [reflexivity|].
  cbn [zeros_and_commas string_forall] in H.
  apply andb_prop in H as [Hc Hl].
  cbn [append delete_char].
  destruct (Ascii.eqb c ",") eqn:E; [now apply IH|].
  rewrite orb_false_r in Hc. cbn [strip_leading]. rewrite Hc.
  now apply IH.
Qed.

Lemma sanitize_ignores_leading_zeros_witness :
  sanitize ("0,0" ++ "7,000") = sanitize "7,000".
Proof.
  apply (sanitize_ignores_leading_zeros "0,0" "7,000"). reflexivity.
Defined.

(** ** Validation *)

Lemma is_valid_number_loop_until_nul (s : string) (i : Z) :
  spell_utilities.is_valid_number_loop s i
  = if digits_only (until_nul s)
    then Some (i + Z.of_nat (String.length (until_nul s)))
    else None.
Proof.
  revert i. induction s as [|c s IH]; intros i;
    cbn [spell_utilities.is_valid_number_loop until_nul].
  - cbn. now rewrite Z.add_0_r.
  - destruct (Ascii.eqb c zero); [cbn; now rewrite Z.add_0_r|].
    unfold digits_only in *. cbn [string_forall String.length].
    rewrite is_digit_digit_of.
    destruct (0 <=? digit_of c) eqn:E1; destruct (digit_of c <=? 9) eqn:E2;
      destruct (digit_of c <? 0) eqn:E3; destruct (digit_of c >? 9) eqn:E4;
      try lia; cbn [andb orb]; try reflexivity.
    rewrite IH. destruct (string_forall is_digit (until_nul s));
      [f_equal; lia | reflexivity].
Qed.

Lemma is_valid_number_until_nul (s : string) :
  spell_utilities.is_valid_number s
  = negb (s =? "")%string
    && digits_only (until_nul s)
    && (Z.of_nat (String.length (until_nul s))
        <=? spell_utilities.MAX_DIGITS_ALLOWED).
Proof.
  unfold spell_utilities.is_valid_number.
  destruct s as [|c s]; [reflexivity|].
  rewrite is_valid_number_loop_until_nul. cbn [String.eqb negb andb].
  destruct (digits_only (until_nul (String c s))); [|reflexivity].
  rewrite Z.add_0_l. cbn [andb].
  destruct (Z.of_nat _ >? _) eqn:E1; destruct (Z.of_nat _ <=? _) eqn:E2;
    try reflexivity; lia.
Qed.

(** X4: [is_valid_number] looks at the characters before the first NUL
    only: it accepts exactly the non-empty strings in which these are all
    digits and at most [MAX_DIGITS_ALLOWED] many; what follows a NUL is
    not examined. *)
Theorem is_valid_number_criterion (s : string) :
  spell_utilities.is_valid_number s
  = negb (s =? "")%string
    && digits_only (until_nul s)
    && (Z.of_nat (String.length (until_nul s))
        <=? spell_utilities.MAX_DIGITS_ALLOWED).
Proof. exact (is_valid_number_until_nul s). Qed.

Lemma until_nul_no_nul (s : string) : no_nul s = true -> until_nul s = s.
Proof.
  unfold no_nul. induction s as [|c s IH]; cbn [string_forall until_nul];
    [reflexivity|].
  intros H. apply andb_prop in H as [Hc Hs].
  destruct (Ascii.eqb c zero); [discriminate|]. now rewrite IH.
Qed.

Lemma no_nul_sanitize (raw : string) :
  no_nul raw = true -> no_nul (sanitize raw) = true.
Proof.
  intros H. rewrite sanitize_spec. unfold no_nul.
  now apply string_forall_strip_leading, string_forall_delete_char.
Qed.

Lemma is_valid_number_sanitize (raw : string) :
  no_nul raw = true ->
  spell_utilities.is_valid_number (sanitize raw)
  = valid_number (sanitize raw).
Proof.
  intros H. rewrite is_valid_number_until_nul.
  rewrite (until_nul_no_nul _ (no_nul_sanitize raw H)).
  unfold valid_number, normalized.
  destruct (sanitize_no_comma_no_zero raw) as [_ Hhead].
  destruct (sanitize raw) as [|c s]; [reflexivity|].
  specialize (Hhead c s eq_refl). apply Ascii.eqb_neq in Hhead.
  rewrite Hhead. reflexivity.
Qed.

Lemma Spell_new_no_nul (raw : string) :
  no_nul raw = true ->
  Spell_new raw
  = if valid_number (sanitize raw)
    then inr (mkSpell (sanitize raw) "" "")
    else inl InvalidNumber.
Proof.
  intros H. unfold Spell_new, set_number_in_digits.
  rewrite (is_valid_number_sanitize raw H).
  now destruct (valid_number (sanitize raw)).
Qed.

(** X5: on an input without a NUL character, the constructor succeeds
    exactly when the normalized input is a digit string with a nonzero
    leading digit and at most 102 digits; the object then holds that
    string and two empty results, and otherwise the InvalidNumber error is
    raised. *)
Theorem Spell_new_criterion (raw : string) :
  no_nul raw = true ->
  Spell_new raw
  = if valid_number (sanitize raw)
    then inr (mkSpell (sanitize raw) "" "")
    else inl InvalidNumber.
Proof. exact (Spell_new_no_nul raw). Qed.

Lemma Spell_new_criterion_witness :
  Spell_new "0,012,345"
  = if valid_number (sanitize "0,012,345")
    then inr (mkSpell (sanitize "0,012,345") "" "")
    else inl InvalidNumber.
Proof. apply (Spell_new_criterion "0,012,345"). reflexivity. Defined.

(** ** The object *)

Lemma do_spell_body_digits (bucket : list string) (i : nat)
    (st st' : spell_state) :
  do_spell_body bucket i st = Some st' ->
  _number_in_digits (this_ st') = _number_in_digits (this_ st).
Proof.
  unfold do_spell_body. intros H.
  destruct (nth_error bucket i) as [g|]; [|discriminate].
  destruct (negb (spell_utilities.string_to_integer g =? 0));
    cbn [set_words_and_digits set_words _number_in_words
         _number_in_digits _number_in_words_and_digits] in H;
    (destruct (spell_bucket g _ _) as [w|]; [|discriminate]);
    try (destruct (show_big_number_name st));
    try (destruct (index_array _ _) as [name|]; [|discriminate]);
    injection H as <-; reflexivity.
Qed.

Lemma do_spell_loop_digits (n : nat) :
  forall (bucket : list string) (i : nat) (st st' : spell_state),
    do_spell_loop n bucket i st = Some st' ->
    _number_in_digits (this_ st') = _number_in_digits (this_ st).
Proof.
  induction n as [|n IH]; intros bucket i st st' H.
  - injection H as <-. reflexivity.
  - rewrite do_spell_loop_S in H.
    destruct (do_spell_body bucket i st) as [st1|] eqn:Hbody;
      [|discriminate].
    rewrite (IH _ _ _ _ H). exact (do_spell_body_digits _ _ _ _ Hbody).
Qed.

Lemma do_spell_from_digits (this : Spell) :
  do_spell this = do_spell (mkSpell (_number_in_digits this) "" "").
Proof. destruct this as [d w wd]. reflexivity. Qed.

Lemma do_spell_digits (this this' : Spell) :
  do_spell this = Some this' ->
  _number_in_digits this' = _number_in_digits this.
Proof.
  unfold do_spell. intros H.
  destruct (do_spell_init this) as [[n bucket] st0] eqn:Hinit.
  destruct (do_spell_loop (Z.to_nat n) bucket 0 st0) as [st'|] eqn:Hrun;
    [|discriminate].
  injection H as <-. rewrite (do_spell_loop_digits _ _ _ _ _ Hrun).
  unfold do_spell_init in Hinit.
  destruct (spell_utilities.split_number_to_buckets_of_3_digits _ _)
    in Hinit.
  injection Hinit as _ _ <-. now destruct this.
Qed.

(** X6: the object always holds a string that passed validation: the
    constructor establishes it, [set_number_in_digits] keeps it whether it
    returns or throws, and [do_spell] does not touch the stored string. *)
Theorem stored_number_is_validated :
  (forall raw sp,
      Spell_new raw = inr sp ->
      spell_utilities.is_valid_number (_number_in_digits sp) = true)
  /\ (forall raw this,
         spell_utilities.is_valid_number (_number_in_digits this) = true ->
         spell_utilities.is_valid_number
           (_number_in_digits (snd (set_number_in_digits raw this))) = true)
  /\ (forall this this',
         do_spell this = Some this' ->
         _number_in_digits this' = _number_in_digits this).
Proof.
  repeat split.
  - intros raw sp. unfold Spell_new, set_number_in_digits.
    destruct (spell_utilities.is_valid_number (sanitize raw)) eqn:E;
      cbn [negb]; [|discriminate].
    intros H. injection H as <-. exact E.
  - intros raw this Hv. unfold set_number_in_digits.
    destruct (spell_utilities.is_valid_number (sanitize raw)) eqn:E;
      cbn [negb snd set_digits _number_in_digits]; assumption.
  - apply do_spell_digits.
Qed.

Lemma stored_number_is_validated_witness :
  spell_utilities.is_valid_number
    (_number_in_digits (mkSpell "1001" "" "")) = true
  /\ spell_utilities.is_valid_number
       (_number_in_digits
          (snd (set_number_in_digits "x" (mkSpell "1001" "" "")))) = true.
Proof.
  destruct stored_number_is_validated as (Hnew & Hset & _). split.
  - apply (Hnew "1,001"). reflexivity.
  - apply (Hset "x"). reflexivity.
Defined.

(** X7: [do_spell] starts from the stored digits alone: results left by an
    earlier call do not show in the new ones, and calling it again on its
    own result changes nothing. *)
Theorem do_spell_overwrites_results (this : Spell) :
  do_spell this = do_spell (mkSpell (_number_in_digits this) "" "")
  /\ (forall this', do_spell this = Some this' ->
                    do_spell this' = Some this').
Proof.
  split; [apply do_spell_from_digits|].
  intros this' H.
  rewrite (do_spell_from_digits this'), (do_spell_digits _ _ H).
  now rewrite <- do_spell_from_digits.
Qed.

Lemma do_spell_overwrites_results_witness :
  do_spell (mkSpell "14" "fourteen  " "14  ")
  = Some (mkSpell "14" "fourteen  " "14  ").
Proof.
  apply (proj2 (do_spell_overwrites_results (mkSpell "14" "stale" "stale"))).
  reflexivity.
Defined.

(** X8: an object that is given a new number spells it as a new object
    does: if the constructor accepts [raw], then on any object
    [set_number_in_digits] returns, and [do_spell] after it gives what it
    gives on the new object. *)
Theorem reused_object_spells_like_new (this : Spell) (raw : string)
    (sp : Spell) :
  Spell_new raw = inr sp ->
  fst (set_number_in_digits raw this) = Returned
  /\ do_spell (snd (set_number_in_digits raw this)) = do_spell sp.
Proof.
  unfold Spell_new, set_number_in_digits.
  destruct (spell_utilities.is_valid_number (sanitize raw));
    cbn [negb fst snd]; [|discriminate].
  intros H. injection H as <-. split; [reflexivity|].
  now rewrite do_spell_from_digits.
Qed.

Lemma reused_object_spells_like_new_witness :
  fst (set_number_in_digits "1,001" (mkSpell "14" "fourteen  " "14  "))
  = Returned
  /\ do_spell
       (snd (set_number_in_digits "1,001"
               (mkSpell "14" "fourteen  " "14  ")))
     = do_spell (mkSpell "1001" "" "").
Proof.
  apply (reused_object_spells_like_new
           (mkSpell "14" "fourteen  " "14  ") "1,001"
           (mkSpell "1001" "" "")).
  reflexivity.
Defined.

(** ** Numerals of a group *)

Lemma length_substring_0 (m : nat) (s : string) :
  (String.length (substring 0 m s) <= m)%nat.
Proof.
  revert s. induction m as [|m IH]; intros [|c s]; cbn; try lia.
  specialize (IH s). lia.
Qed.

Lemma numerals_below_1000 :
  forallb
    (fun k =>
       (spell_utilities.integer_to_string (Z.of_nat k)
        =? decimal (Z.of_nat k))%string
       && (spell_utilities.string_to_integer
             (spell_utilities.integer_to_string (Z.of_nat k))
           =? Z.of_nat k))
    (seq 0 1000) = true.
Proof. vm_compute. reflexivity. Qed.

(** X9: [integer_to_string] never gives more than three characters, the
    size of its buffer less the terminator; on 0..999, the values of a
    group, it gives the whole decimal numeral, and [string_to_integer]
    reads the number back from it, whether it has one, two or three
    digits. *)
Theorem numeral_round_trip :
  (forall n : Z,
      (String.length (spell_utilities.integer_to_string n) <= 3)%nat)
  /\ (forall n : Z,
         0 <= n <= 999 ->
         spell_utilities.integer_to_string n = decimal n
         /\ spell_utilities.string_to_integer
              (spell_utilities.integer_to_string n) = n).
Proof.
  split.
  - intros n. apply length_substring_0.
  - intros n Hn.
    pose proof numerals_below_1000 as H. rewrite forallb_forall in H.
    specialize (H (Z.to_nat n)). rewrite Z2Nat.id in H by lia.
    assert (Hin : In (Z.to_nat n) (seq 0 1000)) by (apply in_seq; lia).
    apply H in Hin. apply andb_prop in Hin as [H1 H2].
    split; [now apply String.eqb_eq | now apply Z.eqb_eq].
Qed.

Lemma numeral_round_trip_witness :
  spell_utilities.integer_to_string 40 = decimal 40
  /\ spell_utilities.string_to_integer
       (spell_utilities.integer_to_string 40) = 40.
Proof. apply (proj2 numeral_round_trip 40). lia. Defined.

Lemma is_digit_in_digit_chars (c : ascii) :
  is_digit c = true -> In c digit_chars.
Proof.
  destruct c as [[] [] [] [] [] [] [] []]; intros H;
    try discriminate H; cbn; tauto.
Qed.

Lemma numerals_of_all_groups :
  forallb
    (fun a =>
       forallb
         (fun b =>
            forallb
              (fun c =>
                 (spell_utilities.integer_to_string
                    (spell_utilities.string_to_integer
                       (String a (String b (String c ""))))
                  =? numeral_of_group (String a (String b (String c ""))))
                   %string)
              digit_chars)
         digit_chars)
    digit_chars = true.
Proof. vm_compute. reflexivity. Qed.

(** X17: the numeral that [do_spell] writes for a group, the group read by
    [string_to_integer] and written by [integer_to_string], is the group
    without its leading zeros (["0"] for the group of three zeros). *)
Theorem numeral_of_a_group (g : string) :
  is_group g = true ->
  spell_utilities.integer_to_string (spell_utilities.string_to_integer g)
  = numeral_of_group g.
Proof.
  intros Hg. destruct (group_shape g Hg) as (a & b & c & -> & Ha & Hb & Hc).
  pose proof numerals_of_all_groups as H.
  rewrite forallb_forall in H.
  specialize (H a (is_digit_in_digit_chars a Ha)).
  rewrite forallb_forall in H.
  specialize (H b (is_digit_in_digit_chars b Hb)).
  rewrite forallb_forall in H.
  specialize (H c (is_digit_in_digit_chars c Hc)).
  now apply String.eqb_eq.
Qed.

Lemma numeral_of_a_group_witness :
  spell_utilities.integer_to_string (spell_utilities.string_to_integer "020")
  = numeral_of_group "020".
Proof. apply (numeral_of_a_group "020"). reflexivity. Defined.

(** ** The number that the groups hold *)

Lemma decimal_value_append (a b : string) (acc : Z) :
  decimal_value acc (a ++ b) = decimal_value (decimal_value acc a) b.
Proof.
  revert acc. induction a as [|c a IH]; intros acc; cbn; [reflexivity|].
  apply IH.
Qed.

Lemma decimal_value_zeros (n : nat) : decimal_value 0 (fill n "0") = 0.
Proof. induction n as [|n IH]; cbn; [reflexivity | exact IH]. Qed.

Lemma groups_value_from (groups : list string) :
  Forall (fun g => String.length g = 3%nat) groups ->
  forall acc,
    fold_left
      (fun acc g => acc * 1000 + spell_utilities.string_to_integer g)
      groups acc
    = decimal_value acc (flatten groups).
Proof.
  induction 1 as [|g groups Hg _ IH]; intros acc; [reflexivity|].
  destruct g as [|a [|b [|c [|d g]]]]; try discriminate.
  cbn [fold_left flatten fold_right]. rewrite IH, decimal_value_append.
  f_equal. rewrite string_to_integer_group. cbn [decimal_value]. lia.
Qed.

(** X10: grouping keeps the number: reading the groups in order, each as
    [string_to_integer] reads it and worth a thousand times the groups
    after it, gives the number that the characters of the input write in
    base ten. *)
Theorem groups_hold_the_number (input : string) :
  groups_value
    (snd (spell_utilities.split_number_to_buckets_of_3_digits input []))
  = decimal_value 0 input.
Proof.
  destruct (split_groups input []) as (groups & Hrun & _ & Hall & Hcat).
  rewrite Hrun. cbn [snd app]. unfold groups_value.
  rewrite (groups_value_from groups Hall), Hcat. unfold padding.
  now rewrite decimal_value_append, decimal_value_zeros.
Qed.

(** ** The results, group by group *)

Lemma spell_hundreds_from (g : string) (v : Z) (w : string) :
  spell_hundreds g v w
  = (x <- spell_hundreds g v "" ;; Some (w ++ x)).
Proof.
  unfold spell_hundreds. destruct (v >? 99).
  - now destruct (index_array _ _).
  - now rewrite append_nil_r.
Qed.

Lemma spell_tens_from (v : Z) (w : string) :
  spell_tens v w = ('(v', x) <- spell_tens v "" ;; Some (v', w ++ x)).
Proof.
  unfold spell_tens.
  destruct ((Z.rem v 100 >? 10) && (Z.rem v 100 <? 20)).
  - now destruct (index_array _ _).
  - destruct (Z.rem v 100 >=? 10).
    + now destruct (index_array _ _).
    + now rewrite append_nil_r.
Qed.

Lemma spell_ones_from (v : Z) (w : string) :
  spell_ones v w = (x <- spell_ones v "" ;; Some (w ++ x)).
Proof.
  unfold spell_ones.
  destruct ((Z.rem v 10 >? 0) && (Z.rem v 10 <? 10)).
  - now destruct (index_array _ _).
  - now rewrite append_nil_r.
Qed.

Lemma spell_bucket_from (g : string) (v : Z) (w : string) :
  spell_bucket g v w = (x <- spell_bucket g v "" ;; Some (w ++ x)).
Proof.
  unfold spell_bucket. rewrite (spell_hundreds_from g v w).
  destruct (spell_hundreds g v "") as [x1|]; [|reflexivity].
  rewrite (spell_tens_from v (w ++ x1)), (spell_tens_from v x1).
  destruct (spell_tens v "") as [[v' x2]|]; [|reflexivity].
  rewrite (spell_ones_from v' ((w ++ x1) ++ x2)),
    (spell_ones_from v' (x1 ++ x2)).
  destruct (spell_ones v' "") as [x3|]; [|reflexivity].
  now rewrite !append_assoc.
Qed.

Lemma spell_bucket_group_words (g : string) (w : string) :
  is_group g = true ->
  spell_bucket g (spell_utilities.string_to_integer g) w
  = Some (w ++ group_words g).
Proof.
  intros Hg. rewrite spell_bucket_from. unfold group_words.
  destruct (spell_bucket_group g "" Hg) as [x ->]. reflexivity.
Qed.

Lemma index_array_big_name (k : nat) :
  (k < 34)%nat ->
  index_array spell_utilities.name_for_big_numbers (Z.of_nat k)
  = Some (big_name k).
Proof.
  intros Hk. unfold index_array, big_name.
  destruct (Z.of_nat k <? 0) eqn:E; [lia|]. rewrite Nat2Z.id.
  apply nth_error_nth'. exact Hk.
Qed.

Lemma do_spell_loop_pieces (groups : list string) :
  forall (pre : list string) (st : spell_state),
    Forall (fun g => is_group g = true) groups ->
    (List.length groups <= 34)%nat ->
    show_big_number_name st = false ->
    big_number st = Z.of_nat (List.length groups) - 1 ->
    do_spell_loop (List.length groups) (pre ++ groups) (List.length pre) st
    = Some (mkState
              (mkSpell (_number_in_digits (this_ st))
                 (_number_in_words (this_ st) ++ words_of_groups groups)
                 (_number_in_words_and_digits (this_ st)
                  ++ digits_of_groups groups))
              false (-1)).
Proof.
  induction groups as [|g rest IH]; intros pre st Hall Hlen Hshow Hbig.
  - cbn [List.length do_spell_loop words_of_groups digits_of_groups].
    rewrite !append_nil_r. destruct st as [[d w wd] sh big].
    cbn in *. now subst.
  - assert (Hg : nth_error (pre ++ g :: rest) (List.length pre) = Some g)
      by now rewrite nth_error_app2, Nat.sub_diag by lia.
    pose proof (Forall_inv Hall) as Hgrp.
    pose proof (Forall_inv_tail Hall) as Hrest.
    cbn [List.length] in *. rewrite do_spell_loop_S.
    replace (pre ++ g :: rest)%list with ((pre ++ [g]) ++ rest)%list in *
      by now rewrite <- app_assoc.
    replace (S (List.length pre)) with (List.length (pre ++ [g])%list)
      by (rewrite length_app; cbn; lia).
    cbn [words_of_groups digits_of_groups].
    destruct (Z.eqb_spec (spell_utilities.string_to_integer g) 0)
      as [Hv|Hv].
    + rewrite (do_spell_body_zero _ _ st g Hg Hv Hshow).
      rewrite IH; [reflexivity | assumption | lia | reflexivity
                  | cbn [big_number]; lia].
    + rewrite (do_spell_body_nonzero _ _ st g _ (big_name (List.length rest))
                 Hg Hv (spell_bucket_group_words g _ Hgrp));
        [|rewrite Hbig;
          replace (Z.of_nat (S (List.length rest)) - 1)
            with (Z.of_nat (List.length rest)) by lia;
          apply index_array_big_name; lia].
      rewrite IH; [|assumption | lia | reflexivity | cbn [big_number]; lia].
      cbn [this_ _number_in_digits _number_in_words
           _number_in_words_and_digits].
      now rewrite !append_assoc.
Qed.

Lemma do_spell_pieces (this : Spell) :
  valid_number (_number_in_digits this) = true ->
  do_spell this
  = Some (mkSpell (_number_in_digits this)
            (words_of_groups
               (snd (spell_utilities.split_number_to_buckets_of_3_digits
                       (_number_in_digits this) [])))
            (digits_of_groups
               (snd (spell_utilities.split_number_to_buckets_of_3_digits
                       (_number_in_digits this) [])))).
Proof.
  intros Hv.
  destruct (do_spell_init_valid this Hv)
    as (groups & Hinit & Hn & Hall & _).
  assert (Hsplit :
            snd (spell_utilities.split_number_to_buckets_of_3_digits
                   (_number_in_digits this) []) = groups).
  { unfold do_spell_init in Hinit.
    cbn [set_words set_words_and_digits _number_in_digits] in Hinit.
    destruct (spell_utilities.split_number_to_buckets_of_3_digits _ _)
      as [n b].
    now injection Hinit as _ -> _. }
  rewrite Hsplit. unfold do_spell. rewrite Hinit, Nat2Z.id.
  rewrite (do_spell_loop_pieces groups [] _ Hall);
    [reflexivity | lia | reflexivity | reflexivity].
Qed.

(** X11: for every valid number the two results are put together group
    by group, most significant first.  A group of value 0 gives nothing.
    Any other group gives its words, then the name of its scale index and a
    space, to [_number_in_words], and its numeral, a space, the same name
    and a space to [_number_in_words_and_digits]; the scale index is the
    number of groups that follow. *)
Theorem do_spell_group_by_group (this : Spell) :
  valid_number (_number_in_digits this) = true ->
  do_spell this
  = Some (mkSpell (_number_in_digits this)
            (words_of_groups
               (snd (spell_utilities.split_number_to_buckets_of_3_digits
                       (_number_in_digits this) [])))
            (digits_of_groups
               (snd (spell_utilities.split_number_to_buckets_of_3_digits
                       (_number_in_digits this) [])))).
Proof. exact (do_spell_pieces this). Qed.

Lemma do_spell_group_by_group_witness :
  do_spell (mkSpell "1000020" "" "")
  = Some (mkSpell "1000020"
            (words_of_groups ["001"; "000"; "020"])
            (digits_of_groups ["001"; "000"; "020"])).
Proof.
  apply (do_spell_group_by_group (mkSpell "1000020" "" "")). reflexivity.
Defined.

Lemma words_of_groups_end (groups : list string) :
  words_of_groups groups = ""
  \/ exists x, words_of_groups groups = x ++ " ".
Proof.
  induction groups as [|g rest IH]; cbn [words_of_groups]; [now left|].
  destruct (spell_utilities.string_to_integer g =? 0); [exact IH|].
  right. destruct IH as [-> | [x ->]].
  - exists (group_words g ++ big_name (List.length rest)).
    now rewrite append_nil_r, !append_assoc.
  - exists ((group_words g ++ big_name (List.length rest) ++ " ") ++ x).
    now rewrite !append_assoc.
Qed.

Lemma digits_of_groups_end (groups : list string) :
  digits_of_groups groups = ""
  \/ exists x, digits_of_groups groups = x ++ " ".
Proof.
  induction groups as [|g rest IH]; cbn [digits_of_groups]; [now left|].
  destruct (spell_utilities.string_to_integer g =? 0); [exact IH|].
  right. destruct IH as [-> | [x ->]].
  - exists (spell_utilities.integer_to_string
              (spell_utilities.string_to_integer g) ++ " "
            ++ big_name (List.length rest)).
    now rewrite append_nil_r, !append_assoc.
  - exists ((spell_utilities.integer_to_string
               (spell_utilities.string_to_integer g) ++ " "
             ++ big_name (List.length rest) ++ " ") ++ x).
    now rewrite !append_assoc.
Qed.

(** X16: for every valid number both results end with a space: every
    word, numeral and name is written with a space after it, the last one
    too. *)
Theorem results_end_with_a_space (this : Spell) :
  valid_number (_number_in_digits this) = true ->
  exists words digits,
    do_spell this
    = Some (mkSpell (_number_in_digits this)
              (words ++ " ") (digits ++ " ")).
Proof.
  intros Hv. destruct (do_spell_valid this Hv) as (x & y & Hrun & Hx & Hy).
  pose proof (do_spell_pieces this Hv) as Hclosed.
  rewrite Hrun in Hclosed. injection Hclosed as Hw Hd.
  destruct (words_of_groups_end
              (snd (spell_utilities.split_number_to_buckets_of_3_digits
                      (_number_in_digits this) []))) as [E | [w E]];
    [congruence|].
  destruct (digits_of_groups_end
              (snd (spell_utilities.split_number_to_buckets_of_3_digits
                      (_number_in_digits this) []))) as [E' | [d E']];
    [congruence|].
  exists w, d. rewrite Hrun. congruence.
Qed.

Lemma results_end_with_a_space_witness :
  exists words digits,
    do_spell (mkSpell "1000" "" "")
    = Some (mkSpell "1000" (words ++ " ") (digits ++ " ")).
Proof.
  apply (results_end_with_a_space (mkSpell "1000" "" "")). reflexivity.
Defined.

(** ** Accepted input *)

(** X12: whatever the constructor accepts from an input without a NUL
    character, [do_spell] spells: it returns, having read no table outside
    its bounds, both results are non-empty, the stored string is the
    normalized input, and [number_length] is between 1 and 102. *)
Theorem accepted_input_is_spelled (raw : string) (sp : Spell) :
  no_nul raw = true ->
  Spell_new raw = inr sp ->
  1 <= number_length sp <= 102
  /\ exists words digits,
       do_spell sp = Some (mkSpell (sanitize raw) words digits)
       /\ words <> "" /\ digits <> "".
Proof.
  intros Hnul Hnew. rewrite (Spell_new_no_nul raw Hnul) in Hnew.
  destruct (valid_number (sanitize raw)) eqn:Hv; [|discriminate].
  injection Hnew as <-.
  destruct (valid_number_inv _ Hv) as (_ & _ & Hl).
  split; [unfold number_length; cbn [_number_in_digits]; lia|].
  exact (do_spell_valid (mkSpell (sanitize raw) "" "") Hv).
Qed.

Lemma accepted_input_is_spelled_witness :
  1 <= number_length (mkSpell "12345" "" "") <= 102
  /\ exists words digits,
       do_spell (mkSpell "12345" "" "")
       = Some (mkSpell (sanitize "0,012,345") words digits)
       /\ words <> "" /\ digits <> "".
Proof.
  apply (accepted_input_is_spelled "0,012,345" (mkSpell "12345" "" ""));
    reflexivity.
Defined.

(** ** Past a NUL character *)

Lemma digits_only_no_comma (s : string) :
  digits_only s = true -> no_comma s = true.
Proof.
  unfold digits_only, no_comma.
  induction s as [|c s IH]; cbn [string_forall]; [reflexivity|].
  intros H. apply andb_prop in H as [Hc Hs].
  now rewrite (is_digit_not_comma c Hc), IH.
Qed.

Lemma until_nul_append (p q : string) :
  digits_only p = true -> until_nul (p ++ String zero q) = p.
Proof.
  unfold digits_only.
  induction p as [|c p IH]; cbn [string_forall append until_nul].
  - reflexivity.
  - intros H. apply andb_prop in H as [Hc Hp].
    now rewrite (is_digit_not_nul c Hc), IH.
Qed.

Lemma do_spell_body_name_out_of_bounds (bucket : list string) (i : nat)
    (st : spell_state) (g w' : string) :
  nth_error bucket i = Some g ->
  spell_utilities.string_to_integer g <> 0 ->
  spell_bucket g (spell_utilities.string_to_integer g)
    (_number_in_words (this_ st)) = Some w' ->
  index_array spell_utilities.name_for_big_numbers (big_number st) = None ->
  do_spell_body bucket i st = None.
Proof.
  intros Hg Hv Hw Hname. unfold do_spell_body.
  rewrite Hg. apply Z.eqb_neq in Hv. rewrite Hv.
  cbn [negb set_words_and_digits _number_in_words].
  now rewrite Hw, Hname.
Qed.

(** The leading group of a string that starts with three digits, the
    first one not ['0']. *)
Lemma leading_group_of_digits (a b c : ascii) (tail : string) (pad : nat)
    (g : string) (rest : list string) :
  is_digit a = true -> is_digit b = true -> is_digit c = true ->
  a <> "0"%char ->
  (pad < 3)%nat ->
  String.length g = 3%nat ->
  flatten (g :: rest)
  = fill pad "0" ++ String a (String b (String c tail)) ->
  is_group g = true /\ spell_utilities.string_to_integer g <> 0.
Proof.
  intros Ha Hb Hc Hnz Hpad Hlen Hcat.
  assert (Hda : digit_of a <> 0)
    by (intros E; now apply digit_of_zero_char in E).
  destruct g as [|x [|y [|z [|t g]]]]; try discriminate.
  cbn [flatten fold_right append] in Hcat.
  destruct pad as [|[|[|pad]]]; [| | |lia]; cbn [fill append] in Hcat;
    injection Hcat as -> -> -> _;
    (split;
     [ unfold is_group, digits_only; cbn [String.length string_forall];
       now rewrite ?Ha, ?Hb, ?Hc
     | rewrite string_to_integer_group;
       apply is_digit_range in Ha, Hb, Hc;
       change (digit_of "0") with 0; lia ]).
Qed.

(** X13: validation does not look past a NUL character, and what it lets
    through can overrun the table of names.  Take at least three and at
    most 102 digits with a nonzero leading digit, a NUL character, and any
    characters without a comma that bring the length to 103 or more: the
    constructor accepts the string whole, and [do_spell] then reads
    [name_for_big_numbers] at an index of 34 or more, outside its 34
    entries. *)
Theorem nul_defeats_the_length_check (p q : string) :
  normalized p = true ->
  (3 <= String.length p <= 102)%nat ->
  no_comma q = true ->
  (103 <= String.length p + 1 + String.length q)%nat ->
  Spell_new (p ++ String zero q)
  = inr (mkSpell (p ++ String zero q) "" "")
  /\ do_spell (mkSpell (p ++ String zero q) "" "") = None.
Proof.
  intros Hn Hp Hq Hlen.
  destruct p as [|a [|b [|c p]]]; cbn [String.length] in Hp; try lia.
  assert (Hd : digits_only (String a (String b (String c p))) = true)
    by (unfold normalized in Hn; now apply andb_prop in Hn as [_ Hn]).
  assert (Ha0 : Ascii.eqb a "0" = false).
  { unfold normalized in Hn. apply andb_prop in Hn as [Hn _].
    now destruct (Ascii.eqb a "0"). }
  remember (String a (String b (String c p)) ++ String zero q) as raw
    eqn:Hraw.
  assert (Hs : sanitize raw = raw).
  { rewrite sanitize_spec, delete_char_no_comma.
    - rewrite Hraw. cbn [append strip_leading]. now rewrite Ha0.
    - rewrite Hraw. unfold no_comma. rewrite string_forall_append.
      apply andb_true_intro. split;
        [exact (digits_only_no_comma _ Hd) | exact Hq]. }
  split.
  - unfold Spell_new, set_number_in_digits. rewrite Hs.
    rewrite is_valid_number_until_nul, Hraw.
    rewrite until_nul_append, Hd by assumption.
    change spell_utilities.MAX_DIGITS_ALLOWED with 102.
    cbn [append String.eqb negb andb String.length].
    destruct (Z.of_nat _ <=? 102) eqn:E;
      [reflexivity | apply Z.leb_gt in E; lia].
  - destruct (split_groups raw []) as (groups & Hrun & Hcount & Hall & Hcat).
    assert (HL : String.length raw
                 = (String.length (String a (String b (String c p)))
                    + 1 + String.length q)%nat).
    { rewrite Hraw, length_append. cbn [String.length]. lia. }
    assert (Hmany : (35 <= List.length groups)%nat).
    { rewrite Hcount.
      pose proof (Nat.div_mod_eq (String.length raw + 2) 3).
      pose proof (Nat.mod_upper_bound (String.length raw + 2) 3
                    ltac:(discriminate)). lia. }
    destruct groups as [|g rest]; [cbn in Hmany; lia|].
    unfold padding in Hcat.
    rewrite Hraw in Hcat at 2. cbn [append] in Hcat.
    destruct (leading_group_of_digits a b c (p ++ String zero q)
                ((3 - String.length raw mod 3) mod 3) g rest)
      as [Hgrp Hv].
    + unfold digits_only in Hd. cbn [string_forall] in Hd.
      now apply andb_prop in Hd as [Hd _].
    + unfold digits_only in Hd. cbn [string_forall] in Hd.
      apply andb_prop in Hd as [_ Hd]. now apply andb_prop in Hd as [Hd _].
    + unfold digits_only in Hd. cbn [string_forall] in Hd.
      apply andb_prop in Hd as [_ Hd]. apply andb_prop in Hd as [_ Hd].
      now apply andb_prop in Hd as [Hd _].
    + now apply Ascii.eqb_neq.
    + apply Nat.mod_upper_bound. discriminate.
    + exact (Forall_inv Hall).
    + exact Hcat.
    + unfold do_spell, do_spell_init.
      cbn [set_words set_words_and_digits _number_in_digits].
      rewrite Hrun. cbn [app]. rewrite Nat2Z.id.
      cbn [List.length] in *. rewrite do_spell_loop_S.
      erewrite do_spell_body_name_out_of_bounds;
        [reflexivity | reflexivity | exact Hv
        | apply spell_bucket_group_words; exact Hgrp |].
      cbn [big_number]. unfold index_array.
      destruct (Z.of_nat (S (List.length rest)) - 1 <? 0) eqn:E;
        [apply Z.ltb_lt in E; lia|].
      apply nth_error_None.
      cbn [List.length spell_utilities.name_for_big_numbers]. lia.
Qed.

Lemma nul_defeats_the_length_check_witness :
  Spell_new ("123" ++ String zero (fill 99 "x"))
  = inr (mkSpell ("123" ++ String zero (fill 99 "x")) "" "")
  /\ do_spell (mkSpell ("123" ++ String zero (fill 99 "x")) "" "") = None.
Proof.
  apply (nul_defeats_the_length_check "123" (fill 99 "x"));
    [reflexivity | cbn [String.length]; lia | reflexivity
    | rewrite length_fill; cbn [String.length]; lia].
Defined.

(** ** The demonstration program *)

Lemma main_try_block (prompt number : string) :
  no_nul number = true ->
  match Spell_new number with
  | inr sp =>
      sp <- do_spell sp ;;
      Some (mkOutput
              (prompt
               ++ ("In words: " ++ number_in_words sp ++ endl)
               ++ ("In words and digits: "
                   ++ number_in_words_and_digits sp ++ endl)
               ++ ("Number length: " ++ decimal (number_length sp)
                   ++ " digits" ++ endl))
              "" 0)
  | inl (runtime_error what) => Some (mkOutput prompt (what ++ endl) 0)
  end
  = Some (spelled_or_refused prompt number).
Proof.
  intros Hnul. rewrite (Spell_new_no_nul number Hnul).
  unfold spelled_or_refused.
  destruct (valid_number (sanitize number)) eqn:Hv; [|reflexivity].
  rewrite (do_spell_pieces (mkSpell (sanitize number) "" "") Hv).
  reflexivity.
Qed.

(** X14: [main] with one argument that holds no NUL character.  If the
    argument starts with ['-'], a negative number among them, the usage
    text is written and nothing is validated.  Otherwise, if its
    normalization is a valid number, three lines go to [std::cout]: the
    words, the words and digits, and the number of digits of the
    normalized number; if not, nothing goes to [std::cout] and the
    constraints message goes to [std::cerr].  In every case [main]
    returns 0, the exception having been caught. *)
Theorem main_with_an_argument (prog arg cin_word : string) :
  no_nul arg = true ->
  main [prog; arg] cin_word
  = Some (if Ascii.eqb (at_ arg 0) "-"
          then mkOutput
                 (("Usage: " ++ endl ++ " " ++ prog
                   ++ " the_number_to_spell " ++ endl ++ endl)
                  ++ (spell_utilities.number_constraints ++ endl))
                 "" 0
          else spelled_or_refused "" arg).
Proof.
  intros Hnul. unfold main.
  cbn [List.length Nat.ltb Nat.leb Nat.eqb nth_error].
  destruct (Ascii.eqb (at_ arg 0) "-"); [reflexivity|].
  exact (main_try_block "" arg Hnul).
Qed.

Lemma main_with_an_argument_witness :
  main ["spell"; "1,000,000"] ""
  = Some (if Ascii.eqb (at_ "1,000,000" 0) "-"
          then mkOutput
                 (("Usage: " ++ endl ++ " " ++ "spell"
                   ++ " the_number_to_spell " ++ endl ++ endl)
                  ++ (spell_utilities.number_constraints ++ endl))
                 "" 0
          else spelled_or_refused "" "1,000,000").
Proof.
  apply (main_with_an_argument "spell" "1,000,000" ""). reflexivity.
Defined.


